(** * SceneManager: texture registry, material registry, transform
      composition and the render sequence

    A shallow embedding of [SceneManager.cpp].  The class members become a
    record, every method becomes a function in a small state-and-fault
    monad, and the calls the class makes on its collaborators (OpenGL, the
    image decoder, the shader manager, the mesh provider) are recorded in
    order in a call log.

    Conventions.
    - C++ [int] and [GLuint] values are [Z]; the two conversions between
      them are written out ([to_GLuint], [to_int]).
    - C++ [float] values are modelled as real numbers: rounding is not
      modelled, so arithmetic statements are about the exact values.
    - An access outside the 16-element texture array and a call through a
      null shader-manager pointer have no defined behaviour in C++; the
      model stops there with [Undefined].
    - A local declared without an initialiser holds an indeterminate
      value: what it holds is an argument of the call that declares it,
      and nothing relates the contents of two calls.
    - Console output ([std::cout]) is not part of the state. *)

From Stdlib Require Import ZArith List String Reals Lra Lia.
From stdpp Require Import base list strings gmap.

Open Scope Z_scope.

(** ** Machine integers *)

Definition to_GLuint (z : Z) : Z := z mod 2 ^ 32.
Definition to_int (z : Z) : Z := (z + 2 ^ 31) mod 2 ^ 32 - 2 ^ 31.

(** ** The part of GLM the scene manager uses *)

Module glm.

Record vec2 := Vec2 { s : R; t : R }.
Record vec3 := Vec3 { x : R; y : R; z : R }.
Record vec4 := Vec4 { r : R; g : R; b : R; a : R }.

(** A [mat4] is stored by columns, as in GLM: [m[i]] is column [i]. *)
Record mat4 := Mat4 { col0 : vec4; col1 : vec4; col2 : vec4; col3 : vec4 }.

Definition vadd (p q : vec4) : vec4 :=
  Vec4 (r p + r q) (g p + g q) (b p + b q) (a p + a q).

Definition vmul (p : vec4) (k : R) : vec4 :=
  Vec4 (r p * k) (g p * k) (b p * k) (a p * k).

(** [operator*(mat4, vec4)]: the combination of the columns of [m] with
    the components of [p]. *)
Definition mul_vec (m : mat4) (p : vec4) : vec4 :=
  vadd (vadd (vmul (col0 m) (r p)) (vmul (col1 m) (g p)))
       (vadd (vmul (col2 m) (b p)) (vmul (col3 m) (a p))).

(** [operator*(mat4, mat4)]: column [j] of the product is [m1] applied to
    column [j] of [m2]. *)
Definition mul (m1 m2 : mat4) : mat4 :=
  Mat4 (mul_vec m1 (col0 m2)) (mul_vec m1 (col1 m2))
       (mul_vec m1 (col2 m2)) (mul_vec m1 (col3 m2)).

Definition identity : mat4 :=
  Mat4 (Vec4 1 0 0 0) (Vec4 0 1 0 0) (Vec4 0 0 1 0) (Vec4 0 0 0 1).

(** [glm::radians]. *)
Definition radians (degrees : R) : R := (degrees * (PI / 180))%R.

Definition dot (p q : vec3) : R := (x p * x q + y p * y q + z p * z q)%R.

Definition normalize (p : vec3) : vec3 :=
  let k := (1 / sqrt (dot p p))%R in Vec3 (x p * k) (y p * k) (z p * k).

(** [glm::scale(v)]: the identity with its first three columns scaled. *)
Definition scale (v : vec3) : mat4 :=
  Mat4 (vmul (col0 identity) (x v)) (vmul (col1 identity) (y v))
       (vmul (col2 identity) (z v)) (col3 identity).

(** [glm::translate(v)]: the identity with last column
    [m[0]*v.x + m[1]*v.y + m[2]*v.z + m[3]]. *)
Definition translate (v : vec3) : mat4 :=
  Mat4 (col0 identity) (col1 identity) (col2 identity)
       (vadd (vadd (vadd (vmul (col0 identity) (x v))
                         (vmul (col1 identity) (y v)))
                   (vmul (col2 identity) (z v)))
             (col3 identity)).

(** [glm::rotate(angle, v)], the rotation of the identity by [angle]
    radians about [v]. *)
Definition rotate (angle : R) (v : vec3) : mat4 :=
  let c := cos angle in
  let s := sin angle in
  let axis := normalize v in
  let temp := Vec3 ((1 - c) * x axis) ((1 - c) * y axis) ((1 - c) * z axis) in
  let R00 := (c + x temp * x axis)%R in
  let R01 := (x temp * y axis + s * z axis)%R in
  let R02 := (x temp * z axis - s * y axis)%R in
  let R10 := (y temp * x axis - s * z axis)%R in
  let R11 := (c + y temp * y axis)%R in
  let R12 := (y temp * z axis + s * x axis)%R in
  let R20 := (z temp * x axis + s * y axis)%R in
  let R21 := (z temp * y axis - s * x axis)%R in
  let R22 := (c + z temp * z axis)%R in
  let m := identity in
  Mat4 (vadd (vadd (vmul (col0 m) R00) (vmul (col1 m) R01)) (vmul (col2 m) R02))
       (vadd (vadd (vmul (col0 m) R10) (vmul (col1 m) R11)) (vmul (col2 m) R12))
       (vadd (vadd (vmul (col0 m) R20) (vmul (col1 m) R21)) (vmul (col2 m) R22))
       (col3 m).

(** The image of an object-space point: [m * vec4(p, 1)], first three
    components. *)
Definition transform_point (m : mat4) (p : vec3) : vec3 :=
  let q := mul_vec m (Vec4 (x p) (y p) (z p) 1) in Vec3 (r q) (g q) (b q).

End glm.

Infix "*m" := glm.mul (at level 40, left associativity).

(** ** The composition as the specification words it

    The textbook matrices, written by rows, for a right-handed frame:
    a positive angle about an axis turns the next axis towards the one
    after it (x to y about z, y to z about x, z to x about y). *)

Definition by_rows (a00 a01 a02 a03
                    a10 a11 a12 a13
                    a20 a21 a22 a23
                    a30 a31 a32 a33 : R) : glm.mat4 :=
  glm.Mat4 (glm.Vec4 a00 a10 a20 a30) (glm.Vec4 a01 a11 a21 a31)
           (glm.Vec4 a02 a12 a22 a32) (glm.Vec4 a03 a13 a23 a33).

Definition Translate (t : glm.vec3) : glm.mat4 :=
  by_rows 1 0 0 (glm.x t)
          0 1 0 (glm.y t)
          0 0 1 (glm.z t)
          0 0 0 1.

Definition Scale (s : glm.vec3) : glm.mat4 :=
  by_rows (glm.x s) 0 0 0
          0 (glm.y s) 0 0
          0 0 (glm.z s) 0
          0 0 0 1.

Definition RotateX (theta : R) : glm.mat4 :=
  by_rows 1 0 0 0
          0 (cos theta) (- sin theta) 0
          0 (sin theta) (cos theta) 0
          0 0 0 1.

Definition RotateY (theta : R) : glm.mat4 :=
  by_rows (cos theta) 0 (sin theta) 0
          0 1 0 0
          (- sin theta) 0 (cos theta) 0
          0 0 0 1.

Definition RotateZ (theta : R) : glm.mat4 :=
  by_rows (cos theta) (- sin theta) 0 0
          (sin theta) (cos theta) 0 0
          0 0 1 0
          0 0 0 1.

Definition degrees_to_radians (d : R) : R := (d * PI / 180)%R.

(** ** Data held by the scene manager *)

(** Modelled from the spec: the struct [TEXTURE_INFO] of SceneManager.h,
    a tag and the OpenGL texture name ([GLuint]) it stands for. *)
Record TEXTURE_INFO := { ID : Z; tag : string }.

(** Modelled from the spec: the struct [OBJECT_MATERIAL] of SceneManager.h,
    the fields the source reads and writes.  The field [tag] is written
    [mtag] here. *)
Record OBJECT_MATERIAL := {
  diffuseColor : glm.vec3;
  specularColor : glm.vec3;
  shininess : R;
  mtag : string
}.

(** What the decoder reports about an image it could read. *)
Record Image := { width : Z; height : Z; colorChannels : Z }.

(** ** Calls on the collaborators *)

Inductive Uniform :=
| UInt (v : Z)
| UFloat (v : R)
| UVec2 (v : glm.vec2)
| UVec3 (v : glm.vec3)
| UVec4 (v : glm.vec4)
| UMat4 (v : glm.mat4)
| USampler2D (slot : Z).

Inductive TexParam := GL_TEXTURE_WRAP_S | GL_TEXTURE_WRAP_T
                    | GL_TEXTURE_MIN_FILTER | GL_TEXTURE_MAG_FILTER.
Inductive TexParamValue := GL_REPEAT | GL_LINEAR.
Inductive TexFormat := GL_RGB8 | GL_RGBA8.

Inductive Mesh :=
| BoxMesh | PyramidMesh | CylinderMesh | TaperedCylinderMesh
| ConeMesh | HalfSphereMesh | PlaneMesh | SphereMesh.

(** One entry of the call log.  A draw call keeps the arguments written at
    the call site (none when the defaults are used). *)
Inductive Call :=
| glGenTextures (name : Z)
| glBindTexture (name : Z)
| glTexParameteri (pname : TexParam) (param : TexParamValue)
| glTexImage2D (internalformat : TexFormat) (w h : Z)
| glGenerateMipmap
| glActiveTexture (unit : Z)
| stbi_set_flip_vertically_on_load (flag : bool)
| stbi_load_file (filename : string)
| stbi_image_free
| SetUniform (name : string) (value : Uniform)
| Draw (mesh : Mesh) (flags : list bool).

(** Modelled from the spec: the class [ShaderManager] (the uniform sink) is
    not part of the sources; each typed setter stores the value under the
    uniform's name, effective immediately. *)
Record ShaderManager := { uniforms : gmap string Uniform }.

(** The members of [SceneManager], the OpenGL texture names alive in the
    context, and the log of calls made so far.  [m_pShaderManager = None]
    is the null pointer. *)
Record State := {
  m_pShaderManager : option ShaderManager;
  m_textureIDs : list TEXTURE_INFO;
  m_loadedTextures : Z;
  m_objectMaterials : list OBJECT_MATERIAL;
  gl_textures : list Z;
  calls : list Call
}.

Definition set_pShaderManager (p : option ShaderManager) (st : State) : State :=
  {| m_pShaderManager := p; m_textureIDs := m_textureIDs st;
     m_loadedTextures := m_loadedTextures st;
     m_objectMaterials := m_objectMaterials st;
     gl_textures := gl_textures st; calls := calls st |}.

Definition set_textureIDs (a : list TEXTURE_INFO) (st : State) : State :=
  {| m_pShaderManager := m_pShaderManager st; m_textureIDs := a;
     m_loadedTextures := m_loadedTextures st;
     m_objectMaterials := m_objectMaterials st;
     gl_textures := gl_textures st; calls := calls st |}.

Definition set_loadedTextures (n : Z) (st : State) : State :=
  {| m_pShaderManager := m_pShaderManager st; m_textureIDs := m_textureIDs st;
     m_loadedTextures := n;
     m_objectMaterials := m_objectMaterials st;
     gl_textures := gl_textures st; calls := calls st |}.

Definition set_objectMaterials (l : list OBJECT_MATERIAL) (st : State) : State :=
  {| m_pShaderManager := m_pShaderManager st; m_textureIDs := m_textureIDs st;
     m_loadedTextures := m_loadedTextures st;
     m_objectMaterials := l;
     gl_textures := gl_textures st; calls := calls st |}.

Definition set_gl_textures (l : list Z) (st : State) : State :=
  {| m_pShaderManager := m_pShaderManager st; m_textureIDs := m_textureIDs st;
     m_loadedTextures := m_loadedTextures st;
     m_objectMaterials := m_objectMaterials st;
     gl_textures := l; calls := calls st |}.

Definition set_calls (l : list Call) (st : State) : State :=
  {| m_pShaderManager := m_pShaderManager st; m_textureIDs := m_textureIDs st;
     m_loadedTextures := m_loadedTextures st;
     m_objectMaterials := m_objectMaterials st;
     gl_textures := gl_textures st; calls := l |}.

(** The sink after one setter call. *)
Definition write_uniform (name : string) (value : Uniform) (sm : ShaderManager)
    : ShaderManager :=
  {| uniforms := <[name := value]> (uniforms sm) |}.

(** The state after the given uniform writes, in order, on the shader
    manager [sm]: the sink holds the values, the log has one entry per
    write, and nothing else has changed. *)
Definition pushed (writes : list (string * Uniform)) (sm : ShaderManager)
    (st : State) : State :=
  set_calls (calls st ++ map (fun w => SetUniform (fst w) (snd w)) writes)
    (set_pShaderManager
       (Some (fold_left (fun sm' w => write_uniform (fst w) (snd w) sm') writes sm))
       st).

(** ** The monad: state, and the two ways to leave defined behaviour *)

Inductive Fault :=
| OutOfBounds (index : Z)
| NullPointer.

Inductive Outcome (A : Type) :=
| Returns (a : A)
| Undefined (f : Fault).
Arguments Returns {A} a.
Arguments Undefined {A} f.

Definition M (A : Type) : Type := State -> Outcome (A * State).

Definition ret {A} (a : A) : M A := fun st => Returns (a, st).

Definition bind {A B} (c : M A) (k : A -> M B) : M B :=
  fun st => match c st with
            | Returns (a, st') => k a st'
            | Undefined f => Undefined f
            end.

Definition undefined {A} (f : Fault) : M A := fun _ => Undefined f.
Definition gets {A} (proj : State -> A) : M A := fun st => Returns (proj st, st).
Definition modify (f : State -> State) : M unit := fun st => Returns (tt, f st).

Notation "x <- c ;; k" := (bind c (fun x => k))
  (at level 100, c at next level, right associativity).
Notation "c ;;; k" := (bind c (fun _ => k))
  (at level 100, right associativity).

(** Appends one call to the log. *)
Definition call (c : Call) : M unit :=
  modify (fun st => set_calls (calls st ++ [c]) st).

(** The state reached and the value returned, when the call returns. *)
Definition result {A} (o : Outcome (A * State)) : option A :=
  match o with Returns (a, _) => Some a | Undefined _ => None end.

Definition final {A} (o : Outcome (A * State)) : option State :=
  match o with Returns (_, st) => Some st | Undefined _ => None end.

(** The value the sink holds for a uniform, if a sink is attached and the
    uniform has been written. *)
Definition uniform_value (name : string) (st : State) : option Uniform :=
  match m_pShaderManager st with
  | Some sm => uniforms sm !! name
  | None => None
  end.

(** ** An environment to run the methods in

    A decoder that knows one unreadable path and one single-channel image
    and reads every other path as a 512 x 512 RGB image; a context that
    numbers its textures 1, 2, 3, ...; and some content for an
    uninitialised material. *)

Definition demo_stbi_load (filename : string) : option Image :=
  if String.eqb filename "textures/missing.jpg" then None
  else if String.eqb filename "textures/grey.png" then
    Some {| width := 64; height := 64; colorChannels := 1 |}
  else Some {| width := 512; height := 512; colorChannels := 3 |}.

Definition demo_glFreshName (alive : list Z) : Z :=
  1 + fold_right Z.max 0 alive.

Definition demo_indeterminate : OBJECT_MATERIAL :=
  {| diffuseColor := glm.Vec3 7 7 7; specularColor := glm.Vec3 7 7 7;
     shininess := 7; mtag := "" |}.

(** What the uninitialised locals hold in two passes of the renderer: 7
    everywhere at each call of the first pass, 8 at each call of the
    second. *)
Definition demo_first_pass : nat -> OBJECT_MATERIAL :=
  fun _ => demo_indeterminate.


Definition sixteen_requests : list (string * string) :=
  [("textures/t00.jpg", "t00"); ("textures/t01.jpg", "t01");
   ("textures/t02.jpg", "t02"); ("textures/t03.jpg", "t03");
   ("textures/t04.jpg", "t04"); ("textures/t05.jpg", "t05");
   ("textures/t06.jpg", "t06"); ("textures/t07.jpg", "t07");
   ("textures/t08.jpg", "t08"); ("textures/t09.jpg", "t09");
   ("textures/t10.jpg", "t10"); ("textures/t11.jpg", "t11");
   ("textures/t12.jpg", "t12"); ("textures/t13.jpg", "t13");
   ("textures/t14.jpg", "t14"); ("textures/t15.jpg", "t15")].

Definition three_requests : list (string * string) :=
  [("textures/plane.jpg", "planeTexture");
   ("textures/missing.jpg", "ghostTexture");
   ("textures/red.jpg", "redTexture")].

Definition empty_sink : ShaderManager := {| uniforms := ∅ |}.

(** ** Names of the uniforms (the globals of the anonymous namespace) *)

Definition g_ModelName : string := "model".
Definition g_ColorValueName : string := "objectColor".
Definition g_TextureValueName : string := "objectTexture".
Definition g_UseTextureName : string := "bUseTexture".
Definition g_UseLightingName : string := "bUseLighting".

(** Modelled from the spec: the bound of the array [m_textureIDs], declared
    in SceneManager.h; the constructor initialises indices 0 to 15. *)
Definition TEXTURE_SLOTS : nat := 16.

(** ** The methods *)

Section Scene.

(** The image decoder: what [stbi_load] finds at a path, if anything. *)
Variable stbi_load : string -> option Image.

(** The name OpenGL hands out, given the names alive in the context. *)
Variable glFreshName : list Z -> Z.

(** The content of an [OBJECT_MATERIAL] local that was declared without
    an initialiser: its colours and shininess are indeterminate.  Every
    call of [SetShaderMaterial] has a local of its own, so the content is
    an argument of the call; [indeterminate] stands for the content one
    call finds. *)
Variable indeterminate : OBJECT_MATERIAL.

(** What the calls of one pass of [RenderScene] find in that local:
    [uninitialised k] is the content at the [k]-th call of
    [SetShaderMaterial] in the pass, counted from 0 in source order.
    Nothing relates the contents of two calls, nor those of two passes. *)
Variable uninitialised : nat -> OBJECT_MATERIAL.

(** *** Access to the texture array and to the shader manager *)

Definition texture_at (index : Z) : M TEXTURE_INFO :=
  fun st =>
    if index <? 0 then Undefined (OutOfBounds index)
    else match m_textureIDs st !! Z.to_nat index with
         | Some e => Returns (e, st)
         | None => Undefined (OutOfBounds index)
         end.

Definition texture_update (index : Z) (f : TEXTURE_INFO -> TEXTURE_INFO) : M unit :=
  e <- texture_at index ;;
  modify (fun st => set_textureIDs (<[Z.to_nat index := f e]> (m_textureIDs st)) st).

Definition material_at (index : Z) : M OBJECT_MATERIAL :=
  fun st =>
    if index <? 0 then Undefined (OutOfBounds index)
    else match m_objectMaterials st !! Z.to_nat index with
         | Some e => Returns (e, st)
         | None => Undefined (OutOfBounds index)
         end.

(** A call [m_pShaderManager->set...Value(name, value)]. *)
Definition shader_set (name : string) (value : Uniform) : M unit :=
  fun st =>
    match m_pShaderManager st with
    | Some sm =>
        Returns (tt, set_calls (calls st ++ [SetUniform name value])
                       (set_pShaderManager (Some (write_uniform name value sm)) st))
    | None => Undefined NullPointer
    end.

Definition setIntValue (name : string) (v : Z) := shader_set name (UInt v).
Definition setFloatValue (name : string) (v : R) := shader_set name (UFloat v).
Definition setVec2Value (name : string) (v : glm.vec2) := shader_set name (UVec2 v).
Definition setVec3Value (name : string) (v : glm.vec3) := shader_set name (UVec3 v).
Definition setVec4Value (name : string) (v : glm.vec4) := shader_set name (UVec4 v).
Definition setMat4Value (name : string) (v : glm.mat4) := shader_set name (UMat4 v).
Definition setSampler2DValue (name : string) (v : Z) := shader_set name (USampler2D v).

(** The test [NULL != m_pShaderManager]. *)
Definition shader_manager_present : M bool :=
  gets (fun st => match m_pShaderManager st with Some _ => true | None => false end).

(** [glGenTextures(1, &name)]. *)
Definition gl_GenTexture : M Z :=
  fun st =>
    let name := glFreshName (gl_textures st) in
    Returns (name, set_calls (calls st ++ [glGenTextures name])
                     (set_gl_textures (name :: gl_textures st) st)).

(** [for (int i = start; i < start + count; i++) body(i)], by recursion
    on the number of iterations left. *)
Fixpoint for_range (count : nat) (i : Z) (body : Z -> M unit) : M unit :=
  match count with
  | O => ret tt
  | S count' => body i ;;; for_range count' (i + 1) body
  end.

(** *** SceneManager() *)

Definition SceneManager_new (pShaderManager : option ShaderManager)
    (gl : list Z) (log : list Call) : State :=
  {| m_pShaderManager := pShaderManager;
     m_textureIDs := replicate TEXTURE_SLOTS {| ID := to_GLuint (-1); tag := "/0" |};
     m_loadedTextures := 0;
     m_objectMaterials := [];
     gl_textures := gl;
     calls := log |}.

(** *** CreateGLTexture() *)

Definition register_texture (textureID : Z) (tag' : string) : M bool :=
  call glGenerateMipmap ;;;
  call stbi_image_free ;;;
  call (glBindTexture 0) ;;;
  n <- gets m_loadedTextures ;;
  texture_update n (fun e => {| ID := textureID; tag := tag e |}) ;;;
  n <- gets m_loadedTextures ;;
  texture_update n (fun e => {| ID := ID e; tag := tag' |}) ;;;
  modify (fun st => set_loadedTextures (m_loadedTextures st + 1) st) ;;;
  ret true.

Definition CreateGLTexture (filename : string) (tag' : string) : M bool :=
  call (stbi_set_flip_vertically_on_load true) ;;;
  call (stbi_load_file filename) ;;;
  match stbi_load filename with
  | Some image =>
      textureID <- gl_GenTexture ;;
      call (glBindTexture textureID) ;;;
      call (glTexParameteri GL_TEXTURE_WRAP_S GL_REPEAT) ;;;
      call (glTexParameteri GL_TEXTURE_WRAP_T GL_REPEAT) ;;;
      call (glTexParameteri GL_TEXTURE_MIN_FILTER GL_LINEAR) ;;;
      call (glTexParameteri GL_TEXTURE_MAG_FILTER GL_LINEAR) ;;;
      if colorChannels image =? 3 then
        call (glTexImage2D GL_RGB8 (width image) (height image)) ;;;
        register_texture textureID tag'
      else if colorChannels image =? 4 then
        call (glTexImage2D GL_RGBA8 (width image) (height image)) ;;;
        register_texture textureID tag'
      else
        ret false
  | None => ret false
  end.

(** *** BindGLTextures() *)

Definition BindGLTextures_body (i : Z) : M unit :=
  call (glActiveTexture i) ;;;
  e <- texture_at i ;;
  call (glBindTexture (ID e)).

Definition BindGLTextures : M unit :=
  n <- gets m_loadedTextures ;;
  for_range (Z.to_nat n) 0 BindGLTextures_body.

(** *** DestroyGLTextures() *)

(** The loop body: [glGenTextures(1, &m_textureIDs[i].ID)] stores a new
    name in the slot, then the slot's [ID] is set to 0. *)
Definition DestroyGLTextures_body (i : Z) : M unit :=
  _ <- texture_at i ;;
  name <- gl_GenTexture ;;
  texture_update i (fun e => {| ID := name; tag := tag e |}) ;;;
  texture_update i (fun e => {| ID := 0; tag := tag e |}).

Definition DestroyGLTextures : M unit :=
  n <- gets m_loadedTextures ;;
  for_range (Z.to_nat n) 0 DestroyGLTextures_body ;;;
  modify (set_loadedTextures 0).

(** *** ~SceneManager()

    The pointer is cleared, then the textures are destroyed (the mesh
    object, deleted in between, is not part of the state). *)

Definition SceneManager_destroy : M unit :=
  modify (set_pShaderManager None) ;;;
  DestroyGLTextures.

(** *** FindTextureID() and FindTextureSlot()

    The [while] loops run over the indices from [index] to
    [m_loadedTextures - 1]; [remaining] counts them, so [remaining = 0]
    is the exit [index >= m_loadedTextures]. *)

Fixpoint FindTextureID_from (remaining : nat) (index : Z) (tag' : string) : M Z :=
  match remaining with
  | O => ret (-1)
  | S remaining' =>
      e <- texture_at index ;;
      if String.eqb (tag e) tag' then ret (to_int (ID e))
      else FindTextureID_from remaining' (index + 1) tag'
  end.

Definition FindTextureID (tag' : string) : M Z :=
  n <- gets m_loadedTextures ;;
  FindTextureID_from (Z.to_nat n) 0 tag'.

Fixpoint FindTextureSlot_from (remaining : nat) (index : Z) (tag' : string) : M Z :=
  match remaining with
  | O => ret (-1)
  | S remaining' =>
      e <- texture_at index ;;
      if String.eqb (tag e) tag' then ret index
      else FindTextureSlot_from remaining' (index + 1) tag'
  end.

Definition FindTextureSlot (tag' : string) : M Z :=
  n <- gets m_loadedTextures ;;
  FindTextureSlot_from (Z.to_nat n) 0 tag'.

(** *** FindMaterial()

    The reference parameter [material] is passed in and returned. *)

Fixpoint FindMaterial_from (remaining : nat) (index : Z) (tag' : string)
    (material : OBJECT_MATERIAL) : M OBJECT_MATERIAL :=
  match remaining with
  | O => ret material
  | S remaining' =>
      e <- material_at index ;;
      if String.eqb (mtag e) tag' then
        ret {| diffuseColor := diffuseColor e;
               specularColor := specularColor e;
               shininess := shininess e;
               mtag := mtag material |}
      else FindMaterial_from remaining' (index + 1) tag' material
  end.

Definition FindMaterial (tag' : string) (material : OBJECT_MATERIAL)
    : M (bool * OBJECT_MATERIAL) :=
  size <- gets (fun st => length (m_objectMaterials st)) ;;
  if Nat.eqb size 0 then ret (false, material)
  else
    material' <- FindMaterial_from size 0 tag' material ;;
    ret (true, material').

(** *** SetTransformations() *)

Definition modelView (scaleXYZ : glm.vec3)
    (XrotationDegrees YrotationDegrees ZrotationDegrees : R)
    (positionXYZ : glm.vec3) : glm.mat4 :=
  let scale := glm.scale scaleXYZ in
  let rotationX := glm.rotate (glm.radians XrotationDegrees) (glm.Vec3 1 0 0) in
  let rotationY := glm.rotate (glm.radians YrotationDegrees) (glm.Vec3 0 1 0) in
  let rotationZ := glm.rotate (glm.radians ZrotationDegrees) (glm.Vec3 0 0 1) in
  let translation := glm.translate positionXYZ in
  translation *m rotationZ *m rotationY *m rotationX *m scale.

Definition SetTransformations (scaleXYZ : glm.vec3)
    (XrotationDegrees YrotationDegrees ZrotationDegrees : R)
    (positionXYZ : glm.vec3) : M unit :=
  let m := modelView scaleXYZ XrotationDegrees YrotationDegrees
                     ZrotationDegrees positionXYZ in
  present <- shader_manager_present ;;
  if present then setMat4Value g_ModelName m else ret tt.

(** *** SetShaderColor(), SetShaderTexture(), SetTextureUVScale() *)

Definition SetShaderColor (redColorValue greenColorValue blueColorValue alphaValue : R)
    : M unit :=
  let currentColor := glm.Vec4 redColorValue greenColorValue blueColorValue alphaValue in
  present <- shader_manager_present ;;
  if present then
    setIntValue g_UseTextureName 0 ;;;
    setVec4Value g_ColorValueName currentColor
  else ret tt.

Definition SetShaderTexture (textureTag : string) : M unit :=
  present <- shader_manager_present ;;
  if present then
    setIntValue g_UseTextureName 1 ;;;
    textureID <- FindTextureSlot textureTag ;;
    setSampler2DValue g_TextureValueName textureID
  else ret tt.

Definition SetTextureUVScale (u v : R) : M unit :=
  present <- shader_manager_present ;;
  if present then setVec2Value "UVscale" (glm.Vec2 u v) else ret tt.

(** *** SetShaderMaterial()

    The local [material] is declared without an initialiser; its tag is
    the empty string, and [garbage] is what its other members hold when
    the call starts. *)

Definition SetShaderMaterial (garbage : OBJECT_MATERIAL) (materialTag : string)
  : M unit :=
  size <- gets (fun st => length (m_objectMaterials st)) ;;
  if (0 <? size)%nat then
    let material := {| diffuseColor := diffuseColor garbage;
                       specularColor := specularColor garbage;
                       shininess := shininess garbage;
                       mtag := "" |} in
    found <- FindMaterial materialTag material ;;
    let (bReturn, material) := found : bool * OBJECT_MATERIAL in
    if bReturn then
      setVec3Value "material.diffuseColor" (diffuseColor material) ;;;
      setVec3Value "material.specularColor" (specularColor material) ;;;
      setFloatValue "material.shininess" (shininess material)
    else ret tt
  else ret tt.

(** *** DefineObjectMaterials() *)

Definition push_back (m : OBJECT_MATERIAL) : M unit :=
  modify (fun st => set_objectMaterials (m_objectMaterials st ++ [m]) st).

Definition DefineObjectMaterials : M unit :=
  let glossMaterial :=
    {| diffuseColor := glm.Vec3 0.4 0.4 0.4; specularColor := glm.Vec3 1.0 1.0 1.0;
       shininess := 128.0; mtag := "shinier" |} in
  push_back glossMaterial ;;;
  let matteMaterial :=
    {| diffuseColor := glm.Vec3 0.3 0.3 0.4; specularColor := glm.Vec3 0.0 0.0 0.0;
       shininess := 0.05; mtag := "matte" |} in
  push_back matteMaterial ;;;
  let goldMaterial :=
    {| diffuseColor := glm.Vec3 0.4 0.4 0.4; specularColor := glm.Vec3 1.0 1.0 1.0;
       shininess := 256.0; mtag := "gold" |} in
  push_back goldMaterial ;;;
  let glassMaterial :=
    {| diffuseColor := glm.Vec3 0.1 0.2 0.3; specularColor := glm.Vec3 1.0 1.0 1.0;
       shininess := 256.0; mtag := "glass" |} in
  push_back glassMaterial.

(** *** The draw calls on [m_basicMeshes] *)

Definition DrawBoxMesh : M unit := call (Draw BoxMesh []).
Definition DrawPyramid4Mesh : M unit := call (Draw PyramidMesh []).
Definition DrawConeMesh : M unit := call (Draw ConeMesh []).
Definition DrawHalfSphereMesh : M unit := call (Draw HalfSphereMesh []).
Definition DrawPlaneMesh : M unit := call (Draw PlaneMesh []).
Definition DrawSphereMesh : M unit := call (Draw SphereMesh []).
Definition DrawCylinderMesh (flags : list bool) : M unit :=
  call (Draw CylinderMesh flags).
Definition DrawTaperedCylinderMesh (flags : list bool) : M unit :=
  call (Draw TaperedCylinderMesh flags).

(** *** LoadSceneTextures()

    The flag [bReturn] only selects a console message. *)

Definition LoadSceneTextures : M unit :=
  _ <- CreateGLTexture "textures/plane.jpg" "planeTexture" ;;
  _ <- CreateGLTexture "textures/red.jpg" "redTexture" ;;
  _ <- CreateGLTexture "textures/circular-gold.jpg" "midTexture" ;;
  _ <- CreateGLTexture "textures/seamless-gold.jpg" "topTexture" ;;
  _ <- CreateGLTexture "textures/cork.jpg" "corkTexture" ;;
  _ <- CreateGLTexture "textures/gold.jpg" "cupTexture" ;;
  _ <- CreateGLTexture "textures/stone.jpg" "bottleTexture" ;;
  _ <- CreateGLTexture "textures/copper.jpg" "knobTexture" ;;
  _ <- CreateGLTexture "textures/white.jpg" "whiteTexture" ;;
  _ <- CreateGLTexture "textures/white2.jpg" "lidTexture" ;;
  _ <- CreateGLTexture "textures/grip.jpg" "gripTexture" ;;
  _ <- CreateGLTexture "textures/pot1.jpg" "pot1" ;;
  _ <- CreateGLTexture "textures/pot2.jpg" "pot2" ;;
  _ <- CreateGLTexture "textures/wall.jpg" "wall" ;;
  BindGLTextures.

(** *** RenderScene()

    The locals [scaleXYZ] and [positionXYZ] are assigned anew before each
    element; each assignment is a [let].  Each call of
    [SetShaderMaterial] comes with the content of its own local. *)

Definition RenderScene : M unit :=
  BindGLTextures ;;;
  (* Tray *)
  let scaleXYZ := glm.Vec3 9.5 0.5 5.5 in
  let positionXYZ := glm.Vec3 (-1.0) (-0.9) 6.0 in
  SetTransformations scaleXYZ 0.0 0.0 0.0 positionXYZ ;;;
  SetShaderTexture "planeTexture" ;;;
  SetShaderMaterial (uninitialised 0) "matte" ;;;
  DrawBoxMesh ;;;
  (* Sugar Container *)
  (* Bottom *)
  let scaleXYZ := glm.Vec3 1.5 1.7 1.5 in
  let positionXYZ := glm.Vec3 2.0 0.2 5.0 in
  SetTransformations scaleXYZ 0.0 45.0 0.0 positionXYZ ;;;
  SetShaderTexture "redTexture" ;;;
  SetShaderMaterial (uninitialised 1) "shinier" ;;;
  DrawBoxMesh ;;;
  (* Middle (Pyramid) *)
  let scaleXYZ := glm.Vec3 1.5 1.5 1.5 in
  let positionXYZ := glm.Vec3 2.0 1.8 5.0 in
  SetTransformations scaleXYZ 0.0 45.0 0.0 positionXYZ ;;;
  SetShaderTexture "midTexture" ;;;
  SetShaderMaterial (uninitialised 2) "shinier" ;;;
  DrawPyramid4Mesh ;;;
  (* Top Box *)
  let scaleXYZ := glm.Vec3 1.0 0.8 1.0 in
  let positionXYZ := glm.Vec3 2.0 1.9 5.0 in
  SetTransformations scaleXYZ 0.0 45.0 0.0 positionXYZ ;;;
  SetShaderTexture "topTexture" ;;;
  SetShaderMaterial (uninitialised 3) "shinier" ;;;
  DrawBoxMesh ;;;
  (* Cork on top *)
  let scaleXYZ := glm.Vec3 0.7 0.4 0.7 in
  let positionXYZ := glm.Vec3 2.0 2.3 5.0 in
  SetTransformations scaleXYZ 0.0 45.0 0.0 positionXYZ ;;;
  SetShaderTexture "corkTexture" ;;;
  SetShaderMaterial (uninitialised 4) "matte" ;;;
  DrawBoxMesh ;;;
  (* Gold Cup *)
  let scaleXYZ := glm.Vec3 0.7 1.2 0.7 in
  let positionXYZ := glm.Vec3 2.5 (-0.6) 7.4 in
  SetTransformations scaleXYZ 0.0 45.0 0.0 positionXYZ ;;;
  SetShaderTexture "cupTexture" ;;;
  SetShaderMaterial (uninitialised 5) "gold" ;;;
  DrawCylinderMesh [false; true; true] ;;;
  (* Coffee Pot *)
  (* Base *)
  let scaleXYZ := glm.Vec3 0.9 1.0 0.9 in
  let positionXYZ := glm.Vec3 (-0.9) (-0.7) 5.3 in
  SetTransformations scaleXYZ 0.0 0.0 0.0 positionXYZ ;;;
  SetShaderTexture "pot2" ;;;
  SetShaderMaterial (uninitialised 6) "shinier" ;;;
  DrawCylinderMesh [false; true; true] ;;;
  (* Middle *)
  let scaleXYZ := glm.Vec3 0.9 2.8 0.9 in
  let positionXYZ := glm.Vec3 (-0.9) 0.2 5.3 in
  SetTransformations scaleXYZ 0.0 0.0 0.0 positionXYZ ;;;
  SetShaderTexture "pot2" ;;;
  SetShaderMaterial (uninitialised 7) "shinier" ;;;
  DrawTaperedCylinderMesh [false; false; true] ;;;
  (* Top *)
  let scaleXYZ := glm.Vec3 0.9 1.0 0.9 in
  let positionXYZ := glm.Vec3 (-0.9) 3.7 5.3 in
  SetTransformations scaleXYZ 180.0 0.0 0.0 positionXYZ ;;;
  SetShaderTexture "pot1" ;;;
  SetShaderMaterial (uninitialised 8) "matte" ;;;
  DrawTaperedCylinderMesh [false; false; true] ;;;
  (* Handle Short *)
  let scaleXYZ := glm.Vec3 0.4 0.5 0.5 in
  let positionXYZ := glm.Vec3 (-0.9) 2.3 4.5 in
  SetTransformations scaleXYZ (-78.0) 0.0 0.0 positionXYZ ;;;
  SetShaderTexture "gripTexture" ;;;
  SetShaderMaterial (uninitialised 9) "matte" ;;;
  DrawBoxMesh ;;;
  (* Handle Long *)
  let scaleXYZ := glm.Vec3 0.4 0.5 1.6 in
  let positionXYZ := glm.Vec3 (-0.9) 2.0 4.1 in
  SetTransformations scaleXYZ (-78.0) 0.0 0.0 positionXYZ ;;;
  SetShaderTexture "gripTexture" ;;;
  SetShaderMaterial (uninitialised 10) "matte" ;;;
  DrawBoxMesh ;;;
  (* Bottle *)
  let scaleXYZ := glm.Vec3 0.8 2.5 0.8 in
  let positionXYZ := glm.Vec3 (-2.9) (-0.7) 5.3 in
  SetTransformations scaleXYZ 0.0 0.0 0.0 positionXYZ ;;;
  SetShaderTexture "bottleTexture" ;;;
  SetShaderMaterial (uninitialised 11) "shinier" ;;;
  DrawCylinderMesh [] ;;;
  (* Middle *)
  let scaleXYZ := glm.Vec3 0.8 0.5 0.8 in
  let positionXYZ := glm.Vec3 (-2.9) 1.8 5.3 in
  SetTransformations scaleXYZ 0.0 0.0 0.0 positionXYZ ;;;
  SetShaderTexture "bottleTexture" ;;;
  SetShaderMaterial (uninitialised 12) "shinier" ;;;
  DrawTaperedCylinderMesh [] ;;;
  (* Top *)
  let scaleXYZ := glm.Vec3 0.4 0.5 0.4 in
  let positionXYZ := glm.Vec3 (-2.9) 2.3 5.3 in
  SetTransformations scaleXYZ 0.0 0.0 0.0 positionXYZ ;;;
  SetShaderTexture "bottleTexture" ;;;
  SetShaderMaterial (uninitialised 13) "shinier" ;;;
  DrawCylinderMesh [false; true; true] ;;;
  (* Cone Object *)
  let scaleXYZ := glm.Vec3 0.8 2.5 0.8 in
  let positionXYZ := glm.Vec3 (-4.6) 0.0 5.3 in
  SetTransformations scaleXYZ 0.0 0.0 0.0 positionXYZ ;;;
  SetShaderTexture "corkTexture" ;;;
  SetShaderMaterial (uninitialised 14) "matte" ;;;
  DrawConeMesh ;;;
  (* Bottom *)
  let scaleXYZ := glm.Vec3 0.8 0.8 0.8 in
  let positionXYZ := glm.Vec3 (-4.6) (-0.02) 5.3 in
  SetTransformations scaleXYZ 180.0 0.0 0.0 positionXYZ ;;;
  SetShaderTexture "corkTexture" ;;;
  SetShaderMaterial (uninitialised 15) "matte" ;;;
  DrawHalfSphereMesh ;;;
  (* Container *)
  (* Container Base *)
  (* Middle Box *)
  let scaleXYZ := glm.Vec3 3.8 0.7 1.5 in
  let positionXYZ := glm.Vec3 (-1.5) (-0.5) 7.5 in
  SetTransformations scaleXYZ 0.0 0.0 0.0 positionXYZ ;;;
  SetShaderTexture "whiteTexture" ;;;
  SetShaderMaterial (uninitialised 16) "shinier" ;;;
  DrawBoxMesh ;;;
  (* Edge Cylinder 1 *)
  let scaleXYZ := glm.Vec3 0.77 0.7 0.77 in
  let positionXYZ := glm.Vec3 (-3.2) (-0.85) 7.5 in
  SetTransformations scaleXYZ 0.0 0.0 0.0 positionXYZ ;;;
  SetShaderTexture "whiteTexture" ;;;
  SetShaderMaterial (uninitialised 17) "shinier" ;;;
  DrawCylinderMesh [] ;;;
  (* Edge Cylinder 2 *)
  let scaleXYZ := glm.Vec3 0.77 0.7 0.77 in
  let positionXYZ := glm.Vec3 0.2 (-0.85) 7.5 in
  SetTransformations scaleXYZ 0.0 0.0 0.0 positionXYZ ;;;
  SetShaderTexture "whiteTexture" ;;;
  SetShaderMaterial (uninitialised 18) "shinier" ;;;
  DrawCylinderMesh [] ;;;
  (* Container Lid *)
  (* Middle Box *)
  let scaleXYZ := glm.Vec3 3.8 0.3 1.58 in
  let positionXYZ := glm.Vec3 (-1.5) 0.0 7.5 in
  SetTransformations scaleXYZ 0.0 0.0 0.0 positionXYZ ;;;
  SetShaderTexture "lidTexture" ;;;
  SetShaderMaterial (uninitialised 19) "shinier" ;;;
  DrawBoxMesh ;;;
  (* Edge Cylinder 1 *)
  let scaleXYZ := glm.Vec3 0.8 0.3 0.8 in
  let positionXYZ := glm.Vec3 (-3.2) (-0.15) 7.5 in
  SetTransformations scaleXYZ 0.0 0.0 0.0 positionXYZ ;;;
  SetShaderTexture "lidTexture" ;;;
  SetShaderMaterial (uninitialised 20) "shinier" ;;;
  DrawCylinderMesh [] ;;;
  (* Edge Cylinder 2 *)
  let scaleXYZ := glm.Vec3 0.8 0.3 0.8 in
  let positionXYZ := glm.Vec3 0.2 (-0.15) 7.5 in
  SetTransformations scaleXYZ 0.0 0.0 0.0 positionXYZ ;;;
  SetShaderTexture "lidTexture" ;;;
  SetShaderMaterial (uninitialised 21) "shinier" ;;;
  DrawCylinderMesh [] ;;;
  (* Knob on top *)
  let scaleXYZ := glm.Vec3 0.3 0.2 0.3 in
  let positionXYZ := glm.Vec3 (-1.5) 0.15 7.5 in
  SetTransformations scaleXYZ 0.0 0.0 0.0 positionXYZ ;;;
  SetShaderTexture "knobTexture" ;;;
  SetShaderMaterial (uninitialised 22) "shinier" ;;;
  DrawCylinderMesh [] ;;;
  (* Backdrop (Wall) *)
  let scaleXYZ := glm.Vec3 11.0 0.5 7.0 in
  let positionXYZ := glm.Vec3 (-1.0) 5.45 (-0.97) in
  SetTransformations scaleXYZ 90.0 0.0 0.0 positionXYZ ;;;
  SetShaderTexture "wall" ;;;
  SetShaderMaterial (uninitialised 23) "matte" ;;;
  DrawPlaneMesh ;;;
  (* Base (Table) *)
  let scaleXYZ := glm.Vec3 22.0 0.5 15.0 in
  let positionXYZ := glm.Vec3 (-1.0) (-1.4) 6.0 in
  SetTransformations scaleXYZ 0.0 0.0 0.0 positionXYZ ;;;
  SetShaderTexture "planeTexture" ;;;
  SetShaderMaterial (uninitialised 24) "shinier" ;;;
  DrawBoxMesh ;;;
  (* Glass Sphere *)
  let scaleXYZ := glm.Vec3 0.8 0.8 0.8 in
  let positionXYZ := glm.Vec3 (-5.1) 0.0 7.3 in
  SetTransformations scaleXYZ 0.0 0.0 0.0 positionXYZ ;;;
  SetShaderColor 0.1 0.2 0.3 0.8 ;;;
  SetShaderMaterial (uninitialised 25) "glass" ;;;
  DrawSphereMesh.

(** ** Properties *)

(** The array has its 16 elements and the counter stays within it: what
    the constructor establishes. *)
Definition within_capacity (st : State) : Prop :=
  length (m_textureIDs st) = TEXTURE_SLOTS /\
  0 <= m_loadedTextures st <= Z.of_nat TEXTURE_SLOTS.

(** The tags of the occupied slots, in slot order. *)
Definition registered (st : State) : list string :=
  tag <$> take (Z.to_nat (m_loadedTextures st)) (m_textureIDs st).

(** A file [CreateGLTexture] accepts: it decodes, with 3 or 4 channels. *)
Definition accepted (filename : string) : bool :=
  match stbi_load filename with
  | Some image => (colorChannels image =? 3) || (colorChannels image =? 4)
  | None => false
  end.

(** [CreateGLTexture] on each request in turn, keeping the results. *)
Fixpoint CreateGLTextures (requests : list (string * string)) : M (list bool) :=
  match requests with
  | [] => ret []
  | (filename, tag') :: rest =>
      ok <- CreateGLTexture filename tag' ;;
      oks <- CreateGLTextures rest ;;
      ret (ok :: oks)
  end.

(** The tags of the accepted requests, in request order. *)
Fixpoint accepted_tags (requests : list (string * string)) : list string :=
  match requests with
  | [] => []
  | (filename, tag') :: rest =>
      if accepted filename then tag' :: accepted_tags rest else accepted_tags rest
  end.

(** The linear scan in words: the position of the first element of [l]
    equal to [t], counted from [i], or -1 when there is none. *)
Fixpoint first_index (t : string) (l : list string) (i : Z) : Z :=
  match l with
  | [] => -1
  | x :: l' => if String.eqb x t then i else first_index t l' (i + 1)
  end.

(** The three writes of [SetShaderMaterial] for the record [m]. *)
Definition material_writes (m : OBJECT_MATERIAL) : list (string * Uniform) :=
  [("material.diffuseColor", UVec3 (diffuseColor m));
   ("material.specularColor", UVec3 (specularColor m));
   ("material.shininess", UFloat (shininess m))].

(** Two states show the same scene when they agree on whether a shader
    manager is attached, on the texture array and its counter, and on the
    materials.  A computation replays when, from two states that show the
    same scene, it ends the same way, returns the same value, adds the
    same calls to the log and leaves the scene as it was. *)
Definition present (st : State) : bool :=
  match m_pShaderManager st with Some _ => true | None => false end.

Definition same_scene (st1 st2 : State) : Prop :=
  present st1 = present st2 /\
  m_textureIDs st1 = m_textureIDs st2 /\
  m_loadedTextures st1 = m_loadedTextures st2 /\
  m_objectMaterials st1 = m_objectMaterials st2.

Definition replays {A} (c : M A) : Prop :=
  forall st1 st2, same_scene st1 st2 ->
    match c st1, c st2 with
    | Returns (a1, s1), Returns (a2, s2) =>
        a1 = a2 /\ same_scene st1 s1 /\ same_scene st2 s2 /\
        exists trace, calls s1 = calls st1 ++ trace /\ calls s2 = calls st2 ++ trace
    | Undefined f1, Undefined f2 => f1 = f2
    | _, _ => False
    end.

(** The material list answers for a tag when it is empty (nothing is
    looked up then) or holds a material with that tag. *)
Definition defines (st : State) (t : string) : Prop :=
  m_objectMaterials st = [] \/
  exists e, e ∈ m_objectMaterials st /\ mtag e = t.

(** The material tags [RenderScene] asks for. *)
Definition scene_material_tags : list string :=
  ["matte"; "shinier"; "gold"; "glass"].

Definition covered (st : State) : Prop :=
  forall t, t ∈ scene_material_tags -> defines st t.

(** Two computations agree when they do the same from every state whose
    materials cover the scene. *)
Definition agree {A} (c1 c2 : M A) : Prop :=
  forall st, covered st -> c1 st = c2 st.

(** A state is renderable when the texture registry is within capacity and
    a shader manager is attached; a computation runs when it returns from
    every renderable state. *)
Definition renderable (st : State) : Prop :=
  within_capacity st /\ present st = true.

Definition runs {A} (c : M A) : Prop :=
  forall st, renderable st -> exists a st', c st = Returns (a, st').

(** *** The array accessors *)

Lemma texture_at_Some (st : State) (index : Z) (e : TEXTURE_INFO) :
  0 <= index ->
  m_textureIDs st !! Z.to_nat index = Some e ->
  texture_at index st = Returns (e, st).
Proof.
  intros Hi He. unfold texture_at.
  destruct (index <? 0) eqn:E; [apply Z.ltb_lt in E; lia|].
  now rewrite He.
Qed.

Lemma texture_at_overrun (st : State) (index : Z) :
  (length (m_textureIDs st) <= Z.to_nat index)%nat ->
  texture_at index st = Undefined (OutOfBounds index).
Proof.
  intros Hi. unfold texture_at.
  destruct (index <? 0); [reflexivity|].
  now rewrite (lookup_ge_None_2 _ _ Hi).
Qed.

Lemma texture_update_Some (st : State) (index : Z) (e : TEXTURE_INFO)
    (f : TEXTURE_INFO -> TEXTURE_INFO) :
  0 <= index ->
  m_textureIDs st !! Z.to_nat index = Some e ->
  texture_update index f st =
    Returns (tt, set_textureIDs (<[Z.to_nat index := f e]> (m_textureIDs st)) st).
Proof.
  intros Hi He. unfold texture_update, bind.
  now rewrite (texture_at_Some _ _ _ Hi He).
Qed.

(** *** Lookup by tag *)

Lemma FindTextureSlot_from_miss (tag' : string) (st : State) :
  forall (remaining : nat) (index : Z),
    0 <= index ->
    (Z.to_nat index + remaining <= length (m_textureIDs st))%nat ->
    (forall (j : nat) (e : TEXTURE_INFO), (j < remaining)%nat ->
       m_textureIDs st !! (Z.to_nat index + j)%nat = Some e -> tag e <> tag') ->
    FindTextureSlot_from remaining index tag' st = Returns (-1, st).
Proof.
  induction remaining as [|remaining IH]; intros index Hi Hlen Hmiss.
  - reflexivity.
  - destruct (lookup_lt_is_Some_2 (m_textureIDs st) (Z.to_nat index)) as [e He];
      [lia|].
    cbn [FindTextureSlot_from]. unfold bind.
    rewrite (texture_at_Some _ _ _ Hi He).
    assert (Hne : tag e <> tag').
    { apply (Hmiss 0%nat); [lia|]. now rewrite Nat.add_0_r. }
    apply String.eqb_neq in Hne. rewrite Hne.
    apply IH; [lia | rewrite Z2Nat.inj_add by lia; simpl Z.to_nat; lia |].
    intros j e' Hj He'. apply (Hmiss (S j)); [lia|].
    rewrite <- He'. f_equal. rewrite Z2Nat.inj_add by lia. simpl Z.to_nat. lia.
Qed.

Lemma FindTextureSlot_from_hit (tag' : string) (st : State) :
  forall (remaining : nat) (index : Z) (k : nat) (e : TEXTURE_INFO),
    0 <= index ->
    (k < remaining)%nat ->
    m_textureIDs st !! (Z.to_nat index + k)%nat = Some e ->
    tag e = tag' ->
    (forall (j : nat) (e' : TEXTURE_INFO), (j < k)%nat ->
       m_textureIDs st !! (Z.to_nat index + j)%nat = Some e' -> tag e' <> tag') ->
    FindTextureSlot_from remaining index tag' st = Returns (index + Z.of_nat k, st).
Proof.
  induction remaining as [|remaining IH]; intros index k e Hi Hk He Htag Hfirst.
  - lia.
  - cbn [FindTextureSlot_from]. unfold bind.
    destruct k as [|k].
    + rewrite Nat.add_0_r in He. rewrite (texture_at_Some _ _ _ Hi He).
      apply String.eqb_eq in Htag. rewrite Htag.
      unfold ret. do 2 f_equal. lia.
    + destruct (lookup_lt_is_Some_2 (m_textureIDs st) (Z.to_nat index)) as [e0 He0].
      { apply lookup_lt_Some in He. lia. }
      rewrite (texture_at_Some _ _ _ Hi He0).
      assert (Hne : tag e0 <> tag').
      { apply (Hfirst 0%nat); [lia|]. now rewrite Nat.add_0_r. }
      apply String.eqb_neq in Hne. rewrite Hne.
      replace (index + Z.of_nat (S k)) with (index + 1 + Z.of_nat k) by lia.
      apply (IH (index + 1) k e); [lia | lia | | exact Htag |].
      * rewrite <- He. f_equal. rewrite Z2Nat.inj_add by lia. simpl Z.to_nat. lia.
      * intros j e' Hj He'. apply (Hfirst (S j)); [lia|].
        rewrite <- He'. f_equal. rewrite Z2Nat.inj_add by lia. simpl Z.to_nat. lia.
Qed.

Lemma registered_lookup (st : State) (i : nat) (t : string) :
  registered st !! i = Some t ->
  (i < Z.to_nat (m_loadedTextures st))%nat /\
  exists e, m_textureIDs st !! i = Some e /\ tag e = t.
Proof.
  unfold registered. rewrite list_lookup_fmap.
  destruct (take _ _ !! i) as [e|] eqn:E; [|discriminate].
  intros [= <-]. apply lookup_take_Some in E as [E Hi].
  split; [exact Hi | now exists e].
Qed.

Lemma lookup_registered (st : State) (i : nat) (e : TEXTURE_INFO) :
  (i < Z.to_nat (m_loadedTextures st))%nat ->
  m_textureIDs st !! i = Some e ->
  registered st !! i = Some (tag e).
Proof.
  intros Hi He. unfold registered.
  rewrite list_lookup_fmap, lookup_take_lt by exact Hi. now rewrite He.
Qed.

(** First match wins: the slot of a registered tag is the least index
    that carries it. *)
Lemma FindTextureSlot_first_match (st : State) (i : nat) (t : string) :
  registered st !! i = Some t ->
  (forall (j : nat) (t' : string), (j < i)%nat -> registered st !! j = Some t' -> t' <> t) ->
  FindTextureSlot t st = Returns (Z.of_nat i, st).
Proof.
  intros Hreg Hfirst. apply registered_lookup in Hreg as (Hi & e & He & Htag).
  unfold FindTextureSlot, bind, gets.
  rewrite (FindTextureSlot_from_hit t st _ 0 i e); [reflexivity | lia | exact Hi | exact He | exact Htag |].
  intros j e' Hj He'. simpl in He'.
  apply (Hfirst j); [exact Hj|]. apply lookup_registered; [lia | exact He'].
Qed.

Lemma FindTextureSlot_unregistered (st : State) (t : string) :
  within_capacity st ->
  t ∉ registered st ->
  FindTextureSlot t st = Returns (-1, st).
Proof.
  intros [Hlen Hn] Hnot. unfold FindTextureSlot, bind, gets.
  apply FindTextureSlot_from_miss; [lia | simpl; unfold TEXTURE_SLOTS in *; lia |].
  intros j e Hj He Htag. simpl in He. apply Hnot.
  apply list_elem_of_lookup. exists j. rewrite <- Htag.
  now apply lookup_registered.
Qed.

(** *** CreateGLTexture *)

Lemma register_texture_free_slot (st : State) (textureID : Z) (tag' : string)
    (e : TEXTURE_INFO) :
  0 <= m_loadedTextures st ->
  m_textureIDs st !! Z.to_nat (m_loadedTextures st) = Some e ->
  exists st',
    register_texture textureID tag' st = Returns (true, st') /\
    m_textureIDs st' =
      <[Z.to_nat (m_loadedTextures st) := {| ID := textureID; tag := tag' |}]>
        (m_textureIDs st) /\
    m_loadedTextures st' = m_loadedTextures st + 1 /\
    m_objectMaterials st' = m_objectMaterials st /\
    m_pShaderManager st' = m_pShaderManager st /\
    gl_textures st' = gl_textures st.
Proof.
  intros Hn He.
  unfold register_texture, call, modify, gets, bind, ret. cbn.
  erewrite texture_update_Some by (cbn; eauto). cbn.
  erewrite texture_update_Some; cbn;
    [| exact Hn
     | apply list_lookup_insert_eq; apply lookup_lt_Some in He; exact He].
  eexists. split; [reflexivity|]. cbn.
  rewrite list_insert_insert_eq. auto.
Qed.

Lemma register_texture_no_slot (st : State) (textureID : Z) (tag' : string) :
  (length (m_textureIDs st) <= Z.to_nat (m_loadedTextures st))%nat ->
  register_texture textureID tag' st = Undefined (OutOfBounds (m_loadedTextures st)).
Proof.
  intros Hlen.
  unfold register_texture, call, modify, gets, bind, ret. cbn.
  unfold texture_update, bind. now rewrite texture_at_overrun by (cbn; exact Hlen).
Qed.

Lemma accepted_true (filename : string) :
  accepted filename = true ->
  exists image, stbi_load filename = Some image /\
                (colorChannels image = 3 \/ colorChannels image = 4).
Proof.
  unfold accepted. destruct (stbi_load filename) as [image|]; [|discriminate].
  intros H. exists image. split; [reflexivity|].
  apply orb_true_iff in H as [H|H]; apply Z.eqb_eq in H; auto.
Qed.

Lemma accepted_false (filename : string) :
  accepted filename = false ->
  stbi_load filename = None \/
  exists image, stbi_load filename = Some image /\
                colorChannels image <> 3 /\ colorChannels image <> 4.
Proof.
  unfold accepted. destruct (stbi_load filename) as [image|]; [|auto].
  intros H. right. exists image. split; [reflexivity|].
  apply orb_false_iff in H as [H3 H4].
  apply Z.eqb_neq in H3, H4. auto.
Qed.

Lemma bind_call {A} (c : Call) (k : unit -> M A) (st : State) :
  bind (call c) k st = k tt (set_calls (calls st ++ [c]) st).
Proof. reflexivity. Qed.

Lemma gl_textures_set_calls (l : list Call) (st : State) :
  gl_textures (set_calls l st) = gl_textures st.
Proof. reflexivity. Qed.

Lemma bind_gl_GenTexture {A} (k : Z -> M A) (st : State) :
  bind gl_GenTexture k st =
    k (glFreshName (gl_textures st))
      (set_calls (calls st ++ [glGenTextures (glFreshName (gl_textures st))])
         (set_gl_textures (glFreshName (gl_textures st) :: gl_textures st) st)).
Proof. reflexivity. Qed.

(** A call that is accepted while a slot is free fills that slot. *)
Lemma CreateGLTexture_free_slot (st : State) (filename tag' : string)
    (e : TEXTURE_INFO) :
  accepted filename = true ->
  0 <= m_loadedTextures st ->
  m_textureIDs st !! Z.to_nat (m_loadedTextures st) = Some e ->
  exists st',
    CreateGLTexture filename tag' st = Returns (true, st') /\
    m_textureIDs st' =
      <[Z.to_nat (m_loadedTextures st) :=
          {| ID := glFreshName (gl_textures st); tag := tag' |}]> (m_textureIDs st) /\
    m_loadedTextures st' = m_loadedTextures st + 1 /\
    m_objectMaterials st' = m_objectMaterials st /\
    m_pShaderManager st' = m_pShaderManager st /\
    gl_textures st' = glFreshName (gl_textures st) :: gl_textures st.
Proof.
  intros Hacc Hn He.
  apply accepted_true in Hacc as (image & Himg & Hch).
  unfold CreateGLTexture. rewrite Himg.
  rewrite !bind_call, bind_gl_GenTexture, !bind_call, !gl_textures_set_calls.
  assert (Hfmt : exists fmt,
    (if colorChannels image =? 3
     then call (glTexImage2D GL_RGB8 (width image) (height image)) ;;;
          register_texture (glFreshName (gl_textures st)) tag'
     else if colorChannels image =? 4
          then call (glTexImage2D GL_RGBA8 (width image) (height image)) ;;;
               register_texture (glFreshName (gl_textures st)) tag'
          else ret false) =
    (call (glTexImage2D fmt (width image) (height image)) ;;;
     register_texture (glFreshName (gl_textures st)) tag')).
  { destruct Hch as [Hch|Hch]; rewrite Hch; eexists; reflexivity. }
  destruct Hfmt as [fmt ->]. rewrite bind_call.
  match goal with
  | |- exists st', register_texture ?id ?t ?s = _ /\ _ =>
      destruct (register_texture_free_slot s id t e) as (st' & Hrun & Hrest);
        [exact Hn | exact He | exists st'; split; [exact Hrun | exact Hrest]]
  end.
Qed.

(** A call that is accepted when the counter is at or past the end of the
    array writes outside the array. *)
Lemma CreateGLTexture_no_slot (st : State) (filename tag' : string) :
  accepted filename = true ->
  (length (m_textureIDs st) <= Z.to_nat (m_loadedTextures st))%nat ->
  CreateGLTexture filename tag' st = Undefined (OutOfBounds (m_loadedTextures st)).
Proof.
  intros Hacc Hlen.
  apply accepted_true in Hacc as (image & Himg & Hch).
  unfold CreateGLTexture. rewrite Himg.
  rewrite !bind_call, bind_gl_GenTexture, !bind_call, !gl_textures_set_calls.
  destruct Hch as [Hch|Hch]; rewrite Hch;
    (change (3 =? 3) with true || change (4 =? 3) with false);
    cbv iota; try change (4 =? 4) with true; cbv iota;
    rewrite bind_call;
    match goal with
    | |- register_texture ?id ?t ?s = _ =>
        exact (register_texture_no_slot s id t Hlen)
    end.
Qed.

(** A call that is not accepted returns [false]; the array and the
    counter are as before. *)
Lemma CreateGLTexture_rejects (st : State) (filename tag' : string) :
  accepted filename = false ->
  exists st',
    CreateGLTexture filename tag' st = Returns (false, st') /\
    m_textureIDs st' = m_textureIDs st /\
    m_loadedTextures st' = m_loadedTextures st /\
    m_objectMaterials st' = m_objectMaterials st /\
    m_pShaderManager st' = m_pShaderManager st.
Proof.
  intros Hacc. unfold CreateGLTexture.
  destruct (accepted_false _ Hacc) as [Hnone|(image & Himg & H3 & H4)].
  - rewrite Hnone. unfold bind, call, modify, ret.
    eexists. split; [reflexivity|]. cbn. auto.
  - rewrite Himg. apply Z.eqb_neq in H3, H4.
    unfold bind, gl_GenTexture, call, modify, ret. cbn. rewrite H3, H4.
    eexists. split; [reflexivity|]. cbn. auto.
Qed.

Lemma registered_push (st st' : State) (e : TEXTURE_INFO) (x : TEXTURE_INFO) :
  0 <= m_loadedTextures st ->
  m_textureIDs st !! Z.to_nat (m_loadedTextures st) = Some e ->
  m_textureIDs st' = <[Z.to_nat (m_loadedTextures st) := x]> (m_textureIDs st) ->
  m_loadedTextures st' = m_loadedTextures st + 1 ->
  registered st' = registered st ++ [tag x].
Proof.
  intros Hn He Harr Hcnt. unfold registered. rewrite Harr, Hcnt.
  replace (Z.to_nat (m_loadedTextures st + 1))
    with (S (Z.to_nat (m_loadedTextures st))) by lia.
  rewrite (take_S_r _ _ x)
    by (apply list_lookup_insert_eq; apply lookup_lt_Some in He; exact He).
  rewrite take_insert_ge by lia. now rewrite fmap_app.
Qed.

Lemma CreateGLTextures_registered (requests : list (string * string)) :
  forall st : State,
    within_capacity st ->
    (Z.to_nat (m_loadedTextures st) + length (accepted_tags requests)
       <= TEXTURE_SLOTS)%nat ->
    exists st',
      CreateGLTextures requests st =
        Returns (map (fun r => accepted (fst r)) requests, st') /\
      within_capacity st' /\
      registered st' = registered st ++ accepted_tags requests /\
      m_objectMaterials st' = m_objectMaterials st /\
      m_pShaderManager st' = m_pShaderManager st.
Proof.
  induction requests as [|[filename tag'] rest IH]; intros st Hwf Hroom.
  - exists st. cbn. rewrite app_nil_r. auto.
  - cbn [CreateGLTextures accepted_tags map fst] in *.
    destruct (accepted filename) eqn:Hacc.
    + destruct Hwf as [Hlen Hn]. cbn [length] in Hroom.
      destruct (lookup_lt_is_Some_2 (m_textureIDs st)
                  (Z.to_nat (m_loadedTextures st))) as [e He]; [lia|].
      destruct (CreateGLTexture_free_slot st filename tag' e Hacc (proj1 Hn) He)
        as (st1 & Hrun & Harr & Hcnt & Hmat & Hsm & _).
      destruct (IH st1) as (st' & Hrest & Hwf' & Hreg & Hmat' & Hsm').
      { split; [rewrite Harr, length_insert; exact Hlen|].
        rewrite Hcnt. unfold TEXTURE_SLOTS in *. lia. }
      { rewrite Hcnt. lia. }
      exists st'. unfold bind. rewrite Hrun, Hrest.
      split; [reflexivity|]. split; [exact Hwf'|].
      split; [|split; congruence].
      rewrite Hreg, (registered_push st st1 e _ (proj1 Hn) He Harr Hcnt).
      now rewrite <- app_assoc.
    + destruct (CreateGLTexture_rejects st filename tag' Hacc)
        as (st1 & Hrun & Harr & Hcnt & Hmat & Hsm).
      destruct (IH st1) as (st' & Hrest & Hwf' & Hreg & Hmat' & Hsm').
      { unfold within_capacity. now rewrite Harr, Hcnt. }
      { now rewrite Hcnt. }
      exists st'. unfold bind. rewrite Hrun, Hrest.
      split; [reflexivity|]. split; [exact Hwf'|].
      split; [|split; congruence].
      rewrite Hreg. unfold registered. now rewrite Harr, Hcnt.
Qed.

Lemma SceneManager_new_within_capacity (p : option ShaderManager)
    (gl : list Z) (log : list Call) :
  within_capacity (SceneManager_new p gl log) /\
  registered (SceneManager_new p gl log) = [].
Proof.
  split; [|reflexivity].
  unfold within_capacity, SceneManager_new, TEXTURE_SLOTS.
  cbn [m_textureIDs m_loadedTextures]. rewrite length_replicate. lia.
Qed.

(** C4.  On a new scene manager, after any sequence of [CreateGLTexture]
    calls of which at most 16 are accepted, with pairwise distinct tags,
    every call returns (the accepted ones [true]), [FindTextureSlot]
    gives each accepted tag its 0-based position among the accepted
    calls, and gives any other tag the value -1. *)
Theorem FindTextureSlot_registration_index
    (requests : list (string * string))
    (pShaderManager : option ShaderManager) (gl : list Z) (log : list Call) :
  NoDup (accepted_tags requests) ->
  (length (accepted_tags requests) <= 16)%nat ->
  exists st,
    CreateGLTextures requests (SceneManager_new pShaderManager gl log) =
      Returns (map (fun r => accepted (fst r)) requests, st) /\
    (forall (i : nat) (tag' : string),
       accepted_tags requests !! i = Some tag' ->
       FindTextureSlot tag' st = Returns (Z.of_nat i, st)) /\
    (forall tag' : string,
       tag' ∉ accepted_tags requests ->
       FindTextureSlot tag' st = Returns (-1, st)).
Proof.
  intros Hdup Hlen.
  destruct (SceneManager_new_within_capacity pShaderManager gl log) as [Hwf Hreg0].
  destruct (CreateGLTextures_registered requests _ Hwf)
    as (st & Hrun & Hwf' & Hreg & _); [cbn; exact Hlen|].
  rewrite Hreg0 in Hreg. cbn in Hreg.
  exists st. split; [exact Hrun|]. split.
  - intros i tag' Hi. apply FindTextureSlot_first_match.
    + now rewrite Hreg.
    + intros j t' Hj Hj' ->. rewrite Hreg in Hj'.
      pose proof (NoDup_lookup _ _ _ _ Hdup Hi Hj'). lia.
  - intros tag' Hnot. apply FindTextureSlot_unregistered; [exact Hwf'|].
    now rewrite Hreg.
Qed.

(** C7.  When the file does not decode, or decodes with a channel count
    other than 3 and 4, [CreateGLTexture] returns [false] and the
    registry is as before: same array, same counter, same registered
    tags. *)
Theorem CreateGLTexture_failure_keeps_registry
    (st : State) (filename tag' : string) :
  (stbi_load filename = None \/
   exists image, stbi_load filename = Some image /\
                 colorChannels image <> 3 /\ colorChannels image <> 4) ->
  exists st',
    CreateGLTexture filename tag' st = Returns (false, st') /\
    m_textureIDs st' = m_textureIDs st /\
    m_loadedTextures st' = m_loadedTextures st /\
    registered st' = registered st.
Proof.
  intros Hfail.
  assert (Hacc : accepted filename = false).
  { unfold accepted. destruct Hfail as [->|(image & -> & H3 & H4)]; [reflexivity|].
    apply Z.eqb_neq in H3, H4. now rewrite H3, H4. }
  destruct (CreateGLTexture_rejects st filename tag' Hacc)
    as (st' & Hrun & Harr & Hcnt & _).
  exists st'. repeat split; try assumption.
  unfold registered. now rewrite Harr, Hcnt.
Qed.

(** *** The scan of [FindTextureSlot] is [first_index] *)

Lemma FindTextureSlot_from_first_index (t : string) (st : State) :
  forall (remaining : nat) (index : Z),
    0 <= index ->
    (Z.to_nat index + remaining <= length (m_textureIDs st))%nat ->
    FindTextureSlot_from remaining index t st =
      Returns (first_index t
                 (tag <$> take remaining (drop (Z.to_nat index) (m_textureIDs st)))
                 index, st).
Proof.
  induction remaining as [|remaining IH]; intros index Hi Hlen.
  - reflexivity.
  - destruct (lookup_lt_is_Some_2 (m_textureIDs st) (Z.to_nat index)) as [e He];
      [lia|].
    cbn [FindTextureSlot_from]. unfold bind.
    rewrite (texture_at_Some _ _ _ Hi He).
    rewrite (drop_S _ _ _ He). cbn [take fmap list_fmap first_index].
    destruct (String.eqb (tag e) t); [reflexivity|].
    rewrite IH by lia.
    replace (Z.to_nat (index + 1)) with (S (Z.to_nat index)) by lia.
    reflexivity.
Qed.

Lemma FindTextureSlot_first_index (t : string) (st : State) :
  within_capacity st ->
  FindTextureSlot t st = Returns (first_index t (registered st) 0, st).
Proof.
  intros [Hlen Hn]. unfold FindTextureSlot, bind, gets.
  rewrite FindTextureSlot_from_first_index;
    [reflexivity | lia | unfold TEXTURE_SLOTS in *; simpl; lia].
Qed.

Lemma first_index_absent (t : string) (l : list string) :
  forall i : Z, t ∉ l -> first_index t l i = -1.
Proof.
  induction l as [|x l IH]; intros i Hnot; [reflexivity|].
  cbn [first_index]. apply not_elem_of_cons in Hnot as [Hne Hnot].
  assert (Hx : x <> t) by congruence.
  apply String.eqb_neq in Hx. rewrite Hx. now apply IH.
Qed.

(** *** FindMaterial *)

Lemma material_at_Some (st : State) (index : Z) (e : OBJECT_MATERIAL) :
  0 <= index ->
  m_objectMaterials st !! Z.to_nat index = Some e ->
  material_at index st = Returns (e, st).
Proof.
  intros Hi He. unfold material_at.
  destruct (index <? 0) eqn:E; [apply Z.ltb_lt in E; lia|].
  now rewrite He.
Qed.

Lemma FindMaterial_from_miss (tag' : string) (material : OBJECT_MATERIAL)
    (st : State) :
  (forall m, m ∈ m_objectMaterials st -> mtag m <> tag') ->
  forall (remaining : nat) (index : Z),
    0 <= index ->
    (Z.to_nat index + remaining <= length (m_objectMaterials st))%nat ->
    FindMaterial_from remaining index tag' material st = Returns (material, st).
Proof.
  intros Hmiss. induction remaining as [|remaining IH]; intros index Hi Hlen.
  - reflexivity.
  - destruct (lookup_lt_is_Some_2 (m_objectMaterials st) (Z.to_nat index))
      as [e He]; [lia|].
    cbn [FindMaterial_from]. unfold bind.
    rewrite (material_at_Some _ _ _ Hi He).
    assert (Hne : mtag e <> tag').
    { apply Hmiss. apply list_elem_of_lookup. now exists (Z.to_nat index). }
    apply String.eqb_neq in Hne. rewrite Hne.
    apply IH; lia.
Qed.

Lemma FindMaterial_empty (st : State) (tag' : string) (material : OBJECT_MATERIAL) :
  m_objectMaterials st = [] ->
  FindMaterial tag' material st = Returns ((false, material), st).
Proof. intros Hempty. unfold FindMaterial, bind, gets. now rewrite Hempty. Qed.

Lemma FindMaterial_no_match (st : State) (tag' : string) (material : OBJECT_MATERIAL) :
  m_objectMaterials st <> [] ->
  (forall m, m ∈ m_objectMaterials st -> mtag m <> tag') ->
  FindMaterial tag' material st = Returns ((true, material), st).
Proof.
  intros Hne Hmiss. unfold FindMaterial, bind, gets.
  destruct (m_objectMaterials st) as [|m0 ms] eqn:E; [congruence|].
  cbn [length Nat.eqb]. rewrite <- E in *.
  rewrite FindMaterial_from_miss; [reflexivity | exact Hmiss | lia |].
  rewrite E. simpl. lia.
Qed.

(** C6.  On an empty material list [FindMaterial] returns [false]; on a
    non-empty list none of whose tags is the one asked for it returns
    [true] and hands back the caller's record as it was. *)
Theorem FindMaterial_miss (st : State) (tag' : string) (material : OBJECT_MATERIAL) :
  (m_objectMaterials st = [] ->
   FindMaterial tag' material st = Returns ((false, material), st)) /\
  (m_objectMaterials st <> [] ->
   (forall m, m ∈ m_objectMaterials st -> mtag m <> tag') ->
   FindMaterial tag' material st = Returns ((true, material), st)).
Proof.
  split; [apply FindMaterial_empty | apply FindMaterial_no_match].
Qed.

(** *** Writes to the sink *)

Lemma shader_set_pushed (st : State) (sm : ShaderManager) (name : string)
    (value : Uniform) :
  m_pShaderManager st = Some sm ->
  shader_set name value st = Returns (tt, pushed [(name, value)] sm st).
Proof. intros H. unfold shader_set. now rewrite H. Qed.

Lemma pushed_pushed (w1 w2 : list (string * Uniform)) (sm : ShaderManager)
    (st : State) :
  pushed w2 (fold_left (fun sm' w => write_uniform (fst w) (snd w) sm') w1 sm)
    (pushed w1 sm st) = pushed (w1 ++ w2) sm st.
Proof.
  unfold pushed, set_calls, set_pShaderManager. cbn.
  now rewrite fold_left_app, map_app, app_assoc.
Qed.

Lemma pushed_present (w : list (string * Uniform)) (sm : ShaderManager) (st : State) :
  m_pShaderManager (pushed w sm st) =
    Some (fold_left (fun sm' w => write_uniform (fst w) (snd w) sm') w sm).
Proof. reflexivity. Qed.

Lemma present_Some (st : State) (sm : ShaderManager) :
  m_pShaderManager st = Some sm -> shader_manager_present st = Returns (true, st).
Proof. intros H. unfold shader_manager_present, gets. now rewrite H. Qed.

Lemma present_None (st : State) :
  m_pShaderManager st = None -> shader_manager_present st = Returns (false, st).
Proof. intros H. unfold shader_manager_present, gets. now rewrite H. Qed.

(** C9.  With a shader manager attached, [SetShaderColor] writes
    [bUseTexture = 0] and then the colour under [objectColor];
    [SetShaderTexture] writes [bUseTexture = 1] and then, under
    [objectTexture], the slot [FindTextureSlot] returns for the tag,
    which is -1 for a tag that is not registered.  Nothing else in the
    state changes. *)
Theorem SetShaderColor_SetShaderTexture_push (st : State) (sm : ShaderManager) :
  m_pShaderManager st = Some sm ->
  (forall r g b a : R,
     SetShaderColor r g b a st =
       Returns (tt, pushed [(g_UseTextureName, UInt 0);
                            (g_ColorValueName, UVec4 (glm.Vec4 r g b a))] sm st)) /\
  (within_capacity st ->
   forall textureTag : string,
     exists slot : Z,
       FindTextureSlot textureTag st = Returns (slot, st) /\
       (textureTag ∉ registered st -> slot = -1) /\
       SetShaderTexture textureTag st =
         Returns (tt, pushed [(g_UseTextureName, UInt 1);
                              (g_TextureValueName, USampler2D slot)] sm st)).
Proof.
  intros Hsm. split.
  - intros r g b a. unfold SetShaderColor, bind.
    rewrite (present_Some _ _ Hsm).
    unfold setIntValue, setVec4Value.
    rewrite (shader_set_pushed _ _ _ _ Hsm).
    rewrite (shader_set_pushed _ _ _ _ (pushed_present _ _ _)).
    now rewrite pushed_pushed.
  - intros Hwf textureTag.
    exists (first_index textureTag (registered st) 0).
    split; [now apply FindTextureSlot_first_index|].
    split; [apply first_index_absent|].
    unfold SetShaderTexture, bind.
    rewrite (present_Some _ _ Hsm).
    unfold setIntValue, setSampler2DValue.
    rewrite (shader_set_pushed _ _ _ _ Hsm).
    rewrite FindTextureSlot_first_index by exact Hwf.
    rewrite (shader_set_pushed _ _ _ _ (pushed_present _ _ _)).
    now rewrite pushed_pushed.
Qed.

(** C10.  With a null shader-manager pointer, [SetTransformations],
    [SetShaderColor], [SetShaderTexture] and [SetTextureUVScale] return
    with the state, and so the sink and the log, exactly as before. *)
Theorem null_shader_manager_no_writes (st : State) :
  m_pShaderManager st = None ->
  (forall scaleXYZ rx ry rz positionXYZ,
     SetTransformations scaleXYZ rx ry rz positionXYZ st = Returns (tt, st)) /\
  (forall r g b a, SetShaderColor r g b a st = Returns (tt, st)) /\
  (forall textureTag, SetShaderTexture textureTag st = Returns (tt, st)) /\
  (forall u v, SetTextureUVScale u v st = Returns (tt, st)).
Proof.
  intros Hnull. repeat split; intros;
    unfold SetTransformations, SetShaderColor, SetShaderTexture,
      SetTextureUVScale, bind;
    now rewrite (present_None _ Hnull).
Qed.

(** *** SetShaderMaterial *)

Lemma material_writes_pushed (st : State) (sm : ShaderManager) (m : OBJECT_MATERIAL) :
  m_pShaderManager st = Some sm ->
  (setVec3Value "material.diffuseColor" (diffuseColor m) ;;;
   setVec3Value "material.specularColor" (specularColor m) ;;;
   setFloatValue "material.shininess" (shininess m)) st =
  Returns (tt, pushed (material_writes m) sm st).
Proof.
  intros Hsm. unfold bind, setVec3Value, setFloatValue.
  rewrite (shader_set_pushed _ _ _ _ Hsm).
  rewrite (shader_set_pushed _ _ _ _ (pushed_present _ _ _)), pushed_pushed.
  rewrite (shader_set_pushed _ _ _ _ (pushed_present _ _ _)), pushed_pushed.
  reflexivity.
Qed.


(** With no material defined, [SetShaderMaterial] does nothing. *)
Lemma SetShaderMaterial_empty (st : State) (materialTag : string) :
  m_objectMaterials st = [] ->
  SetShaderMaterial indeterminate materialTag st = Returns (tt, st).
Proof.
  intros Hempty. unfold SetShaderMaterial, bind, gets. now rewrite Hempty.
Qed.

(** *** DestroyGLTextures *)

Lemma DestroyGLTextures_body_run (st : State) (i : Z) (e : TEXTURE_INFO) :
  0 <= i ->
  m_textureIDs st !! Z.to_nat i = Some e ->
  DestroyGLTextures_body i st =
    Returns (tt,
      set_textureIDs (<[Z.to_nat i := {| ID := 0; tag := tag e |}]> (m_textureIDs st))
        (set_calls (calls st ++ [glGenTextures (glFreshName (gl_textures st))])
           (set_gl_textures (glFreshName (gl_textures st) :: gl_textures st) st))).
Proof.
  intros Hi He. unfold DestroyGLTextures_body.
  unfold bind at 1. rewrite (texture_at_Some _ _ _ Hi He).
  rewrite bind_gl_GenTexture. unfold bind.
  erewrite texture_update_Some; [|exact Hi|cbn; exact He].
  erewrite texture_update_Some;
    [|exact Hi|cbn; apply list_lookup_insert_eq; apply lookup_lt_Some in He; exact He].
  cbn. unfold set_textureIDs. cbn. now rewrite list_insert_insert_eq.
Qed.

(** The loop of [DestroyGLTextures] generates one new texture name per
    occupied slot and releases none. *)
Lemma DestroyGLTextures_loop :
  forall (count : nat) (i : Z) (st : State),
    0 <= i ->
    (Z.to_nat i + count <= length (m_textureIDs st))%nat ->
    exists st',
      for_range count i DestroyGLTextures_body st = Returns (tt, st') /\
      length (m_textureIDs st') = length (m_textureIDs st) /\
      m_loadedTextures st' = m_loadedTextures st /\
      m_objectMaterials st' = m_objectMaterials st /\
      m_pShaderManager st' = m_pShaderManager st /\
      (forall h, h ∈ gl_textures st -> h ∈ gl_textures st') /\
      length (gl_textures st') = (length (gl_textures st) + count)%nat /\
      (forall c, c ∈ calls st' ->
         c ∈ calls st \/ exists name, c = glGenTextures name).
Proof.
  induction count as [|count IH]; intros i st Hi Hlen.
  - exists st. cbn. repeat split; auto.
  - destruct (lookup_lt_is_Some_2 (m_textureIDs st) (Z.to_nat i)) as [e He]; [lia|].
    cbn [for_range]. unfold bind.
    rewrite (DestroyGLTextures_body_run _ _ _ Hi He).
    match goal with |- context [for_range count (i + 1) _ ?s] => set (st1 := s) end.
    destruct (IH (i + 1) st1) as (st' & Hrun & Hl & Hn & Hm & Hp & Hgl & Hcnt & Hcalls).
    { lia. }
    { subst st1. cbn. rewrite length_insert. lia. }
    exists st'. split; [exact Hrun|].
    subst st1. cbn in *. rewrite length_insert in Hl.
    repeat split; try assumption.
    + intros h Hh. apply Hgl. now apply list_elem_of_further.
    + lia.
    + intros c Hc. destruct (Hcalls c Hc) as [Hin|Hgen]; [|now right].
      apply elem_of_app in Hin as [Hin|Hin]; [now left|].
      right. apply list_elem_of_singleton in Hin. eauto.
Qed.

Lemma DestroyGLTextures_run (st : State) :
  within_capacity st ->
  exists st',
    DestroyGLTextures st = Returns (tt, st') /\
    within_capacity st' /\
    m_loadedTextures st' = 0 /\
    (forall h, h ∈ gl_textures st -> h ∈ gl_textures st') /\
    length (gl_textures st') =
      (length (gl_textures st) + Z.to_nat (m_loadedTextures st))%nat /\
    (forall c, c ∈ calls st' ->
       c ∈ calls st \/ exists name, c = glGenTextures name).
Proof.
  intros [Hlen Hn].
  destruct (DestroyGLTextures_loop (Z.to_nat (m_loadedTextures st)) 0 st)
    as (st' & Hrun & Hl & _ & _ & _ & Hgl & Hcnt & Hcalls).
  { lia. }
  { unfold TEXTURE_SLOTS in *. simpl. lia. }
  exists (set_loadedTextures 0 st').
  unfold DestroyGLTextures, bind, gets.
  rewrite Hrun. split; [reflexivity|].
  split; [split; cbn; [congruence | unfold TEXTURE_SLOTS; lia]|].
  repeat split; assumption.
Qed.

(** After [DestroyGLTextures] no tag is found, and a second call changes
    nothing. *)
Lemma DestroyGLTextures_then_lookups (st : State) :
  within_capacity st ->
  m_loadedTextures st = 0 ->
  (forall t, FindTextureSlot t st = Returns (-1, st)) /\
  (forall t, FindTextureID t st = Returns (-1, st)) /\
  DestroyGLTextures st = Returns (tt, st).
Proof.
  intros Hwf H0. repeat split; intros;
    unfold FindTextureSlot, FindTextureID, DestroyGLTextures, bind, gets;
    rewrite H0; cbn; try reflexivity.
  unfold modify. do 2 f_equal. destruct st; cbn in *. now subst.
Qed.

(** *** SetTransformations *)

Lemma unit_axis_length : sqrt (1 * 1 + 0 * 0 + 0 * 0) = 1%R /\
                         sqrt (0 * 0 + 1 * 1 + 0 * 0) = 1%R /\
                         sqrt (0 * 0 + 0 * 0 + 1 * 1) = 1%R.
Proof.
  repeat split;
    match goal with |- sqrt ?a = _ => replace a with 1%R by ring end;
    exact sqrt_1.
Qed.

Ltac glm_unfold :=
  unfold glm.rotate, glm.normalize, glm.dot, glm.scale, glm.translate,
    glm.identity, glm.vadd, glm.vmul, glm.radians, degrees_to_radians,
    RotateX, RotateY, RotateZ, Scale, Translate, by_rows;
  cbn [glm.x glm.y glm.z glm.r glm.g glm.b glm.a
       glm.col0 glm.col1 glm.col2 glm.col3].

Ltac glm_entries :=
  repeat match goal with
         | |- glm.Mat4 _ _ _ _ = glm.Mat4 _ _ _ _ => f_equal
         | |- glm.Vec4 _ _ _ _ = glm.Vec4 _ _ _ _ => f_equal
         | |- glm.Vec3 _ _ _ = glm.Vec3 _ _ _ => f_equal
         end.

Lemma glm_rotate_x (theta : R) : glm.rotate theta (glm.Vec3 1 0 0) = RotateX theta.
Proof.
  destruct unit_axis_length as (H & _ & _).
  glm_unfold. rewrite H. glm_entries; field.
Qed.

Lemma glm_rotate_y (theta : R) : glm.rotate theta (glm.Vec3 0 1 0) = RotateY theta.
Proof.
  destruct unit_axis_length as (_ & H & _).
  glm_unfold. rewrite H. glm_entries; field.
Qed.

Lemma glm_rotate_z (theta : R) : glm.rotate theta (glm.Vec3 0 0 1) = RotateZ theta.
Proof.
  destruct unit_axis_length as (_ & _ & H).
  glm_unfold. rewrite H. glm_entries; field.
Qed.

Lemma glm_scale_Scale (v : glm.vec3) : glm.scale v = Scale v.
Proof. glm_unfold. glm_entries; ring. Qed.

Lemma glm_translate_Translate (v : glm.vec3) : glm.translate v = Translate v.
Proof. glm_unfold. glm_entries; ring. Qed.

Lemma glm_radians_degrees (d : R) : glm.radians d = degrees_to_radians d.
Proof. unfold glm.radians, degrees_to_radians. field. Qed.

Ltac glm_project :=
  cbn [glm.x glm.y glm.z glm.r glm.g glm.b glm.a
       glm.col0 glm.col1 glm.col2 glm.col3].

(** Applying a product is applying the factors from the right. *)
Lemma mul_vec_mul (m1 m2 : glm.mat4) (p : glm.vec4) :
  glm.mul_vec (m1 *m m2) p = glm.mul_vec m1 (glm.mul_vec m2 p).
Proof.
  destruct m1 as [[] [] [] []], m2 as [[] [] [] []], p.
  unfold glm.mul, glm.mul_vec, glm.vadd, glm.vmul. glm_project.
  glm_entries; ring.
Qed.

Lemma Scale_apply (s : glm.vec3) (x y z w : R) :
  glm.mul_vec (Scale s) (glm.Vec4 x y z w) =
    glm.Vec4 (glm.x s * x) (glm.y s * y) (glm.z s * z) w.
Proof.
  unfold Scale, by_rows, glm.mul_vec, glm.vadd, glm.vmul. glm_project.
  glm_entries; ring.
Qed.

Lemma RotateX_apply (theta x y z w : R) :
  glm.mul_vec (RotateX theta) (glm.Vec4 x y z w) =
    glm.Vec4 x (cos theta * y - sin theta * z) (sin theta * y + cos theta * z) w.
Proof.
  unfold RotateX, by_rows, glm.mul_vec, glm.vadd, glm.vmul. glm_project.
  glm_entries; ring.
Qed.

Lemma RotateY_apply (theta x y z w : R) :
  glm.mul_vec (RotateY theta) (glm.Vec4 x y z w) =
    glm.Vec4 (cos theta * x + sin theta * z) y (- sin theta * x + cos theta * z) w.
Proof.
  unfold RotateY, by_rows, glm.mul_vec, glm.vadd, glm.vmul. glm_project.
  glm_entries; ring.
Qed.

Lemma RotateZ_apply (theta x y z w : R) :
  glm.mul_vec (RotateZ theta) (glm.Vec4 x y z w) =
    glm.Vec4 (cos theta * x - sin theta * y) (sin theta * x + cos theta * y) z w.
Proof.
  unfold RotateZ, by_rows, glm.mul_vec, glm.vadd, glm.vmul. glm_project.
  glm_entries; ring.
Qed.

Lemma Translate_apply (t : glm.vec3) (x y z w : R) :
  glm.mul_vec (Translate t) (glm.Vec4 x y z w) =
    glm.Vec4 (x + glm.x t * w) (y + glm.y t * w) (z + glm.z t * w) w.
Proof.
  unfold Translate, by_rows, glm.mul_vec, glm.vadd, glm.vmul. glm_project.
  glm_entries; ring.
Qed.

Lemma modelView_composition (scaleXYZ : glm.vec3) (rx ry rz : R)
    (positionXYZ : glm.vec3) :
  modelView scaleXYZ rx ry rz positionXYZ =
    Translate positionXYZ
      *m RotateZ (degrees_to_radians rz)
      *m RotateY (degrees_to_radians ry)
      *m RotateX (degrees_to_radians rx)
      *m Scale scaleXYZ.
Proof.
  unfold modelView.
  now rewrite glm_rotate_x, glm_rotate_y, glm_rotate_z, glm_scale_Scale,
    glm_translate_Translate, !glm_radians_degrees.
Qed.

(** The regression point: scale (2,1,1), a quarter turn about y, then a
    shift by (1,0,0). *)
Lemma modelView_quarter_turn_y :
  glm.transform_point
    (modelView (glm.Vec3 2 1 1) 0 90 0 (glm.Vec3 1 0 0)) (glm.Vec3 1 0 0)
  = glm.Vec3 1 0 (-2).
Proof.
  rewrite modelView_composition. unfold glm.transform_point. glm_project.
  rewrite !mul_vec_mul.
  rewrite Scale_apply, RotateX_apply, RotateY_apply, RotateZ_apply,
    Translate_apply.
  replace (degrees_to_radians 0) with 0%R by (unfold degrees_to_radians; field).
  replace (degrees_to_radians 90) with (PI / 2)%R
    by (unfold degrees_to_radians; field).
  rewrite cos_0, sin_0, cos_PI2, sin_PI2. glm_project.
  glm_entries; ring.
Qed.

(** The textbook matrices turn the way the specification says. *)
Lemma right_handed_quarter_turns :
  glm.transform_point (RotateX (PI / 2)) (glm.Vec3 0 1 0) = glm.Vec3 0 0 1 /\
  glm.transform_point (RotateY (PI / 2)) (glm.Vec3 0 0 1) = glm.Vec3 1 0 0 /\
  glm.transform_point (RotateZ (PI / 2)) (glm.Vec3 1 0 0) = glm.Vec3 0 1 0.
Proof.
  unfold glm.transform_point. glm_project.
  rewrite RotateX_apply, RotateY_apply, RotateZ_apply, cos_PI2, sin_PI2.
  glm_project. repeat split; glm_entries; ring.
Qed.

(** C5.  The matrix [SetTransformations] composes is
    Translate(t) . RotateZ(rz) . RotateY(ry) . RotateX(rx) . Scale(s),
    the angles converted from degrees to radians and the rotations
    right-handed; it is the value written under [model]; and for
    scale (2,1,1), rotation (0,90,0) degrees and translation (1,0,0) it
    sends the point (1,0,0) to (1,0,-2).  Real arithmetic. *)
Theorem SetTransformations_model_matrix
    (scaleXYZ : glm.vec3) (rx ry rz : R) (positionXYZ : glm.vec3) :
  modelView scaleXYZ rx ry rz positionXYZ =
    Translate positionXYZ
      *m RotateZ (degrees_to_radians rz)
      *m RotateY (degrees_to_radians ry)
      *m RotateX (degrees_to_radians rx)
      *m Scale scaleXYZ /\
  (forall sm textures loaded materials gl log,
     let st := {| m_pShaderManager := Some sm; m_textureIDs := textures;
                  m_loadedTextures := loaded; m_objectMaterials := materials;
                  gl_textures := gl; calls := log |} in
     SetTransformations scaleXYZ rx ry rz positionXYZ st =
       Returns (tt, pushed [(g_ModelName,
                             UMat4 (modelView scaleXYZ rx ry rz positionXYZ))] sm st)) /\
  glm.transform_point
    (modelView (glm.Vec3 2 1 1) 0 90 0 (glm.Vec3 1 0 0)) (glm.Vec3 1 0 0)
  = glm.Vec3 1 0 (-2).
Proof.
  split; [|split].
  - apply modelView_composition.
  - intros. reflexivity.
  - exact modelView_quarter_turn_y.
Qed.

(** *** Replaying the render phase *)

Lemma same_scene_refl (st : State) : same_scene st st.
Proof. repeat split. Qed.

Lemma same_scene_sym (st1 st2 : State) : same_scene st1 st2 -> same_scene st2 st1.
Proof. intros (? & ? & ? & ?). repeat split; congruence. Qed.

Lemma same_scene_trans (st1 st2 st3 : State) :
  same_scene st1 st2 -> same_scene st2 st3 -> same_scene st1 st3.
Proof. intros (? & ? & ? & ?) (? & ? & ? & ?). repeat split; congruence. Qed.

Lemma replays_ret {A} (a : A) : replays (ret a).
Proof.
  intros st1 st2 H. cbn. repeat split; try apply H.
  exists []. now rewrite !app_nil_r.
Qed.

Lemma replays_bind {A B} (c : M A) (k : A -> M B) :
  replays c -> (forall a, replays (k a)) -> replays (bind c k).
Proof.
  intros Hc Hk st1 st2 H. unfold bind. specialize (Hc st1 st2 H).
  destruct (c st1) as [[a1 s1]|f1], (c st2) as [[a2 s2]|f2]; try easy.
  destruct Hc as (<- & H1 & H2 & tr & Htr1 & Htr2).
  assert (H12 : same_scene s1 s2).
  { eapply same_scene_trans; [apply same_scene_sym, H1|].
    eapply same_scene_trans; [exact H|exact H2]. }
  specialize (Hk a1 s1 s2 H12).
  destruct (k a1 s1) as [[b1 t1]|g1], (k a1 s2) as [[b2 t2]|g2]; try easy.
  destruct Hk as (<- & K1 & K2 & tr' & Htr1' & Htr2').
  split; [reflexivity|].
  split; [exact (same_scene_trans _ _ _ H1 K1)|].
  split; [exact (same_scene_trans _ _ _ H2 K2)|].
  exists (tr ++ tr'). rewrite Htr1', Htr2', Htr1, Htr2, !app_assoc. auto.
Qed.

Lemma replays_call (c : Call) : replays (call c).
Proof.
  intros st1 st2 H. cbn. repeat split; try apply H. now exists [c].
Qed.

Lemma replays_present : replays shader_manager_present.
Proof.
  intros st1 st2 H. unfold shader_manager_present, gets.
  split; [apply H|]. repeat split; try apply H.
  exists []. now rewrite !app_nil_r.
Qed.

Lemma replays_loadedTextures : replays (gets m_loadedTextures).
Proof.
  intros st1 st2 H. unfold gets.
  split; [apply H|]. repeat split; try apply H.
  exists []. now rewrite !app_nil_r.
Qed.

Lemma replays_materials_size :
  replays (gets (fun st => length (m_objectMaterials st))).
Proof.
  intros st1 st2 H. unfold gets.
  split; [f_equal; apply H|]. repeat split; try apply H.
  exists []. now rewrite !app_nil_r.
Qed.

Lemma replays_texture_at (i : Z) : replays (texture_at i).
Proof.
  intros st1 st2 H. unfold texture_at.
  destruct H as (Hp & Ha & Hn & Hm). rewrite <- Ha.
  destruct (i <? 0); [reflexivity|].
  destruct (m_textureIDs st1 !! Z.to_nat i); [|reflexivity].
  repeat split; try assumption.
  exists []. now rewrite !app_nil_r.
Qed.

Lemma replays_material_at (i : Z) : replays (material_at i).
Proof.
  intros st1 st2 H. unfold material_at.
  destruct H as (Hp & Ha & Hn & Hm). rewrite <- Hm.
  destruct (i <? 0); [reflexivity|].
  destruct (m_objectMaterials st1 !! Z.to_nat i); [|reflexivity].
  repeat split; try assumption.
  exists []. now rewrite !app_nil_r.
Qed.

Lemma replays_shader_set (name : string) (value : Uniform) :
  replays (shader_set name value).
Proof.
  intros st1 st2 H. unfold shader_set.
  destruct H as (Hp & Ha & Hn & Hm). unfold present in Hp.
  destruct (m_pShaderManager st1) as [sm1|] eqn:E1,
           (m_pShaderManager st2) as [sm2|] eqn:E2; try discriminate;
    [|reflexivity].
  split; [reflexivity|].
  split; [unfold same_scene, present; cbn; now rewrite E1|].
  split; [unfold same_scene, present; cbn; now rewrite E2|].
  now exists [SetUniform name value].
Qed.

Lemma replays_for_range (body : Z -> M unit) :
  (forall i, replays (body i)) ->
  forall (count : nat) (i : Z), replays (for_range count i body).
Proof.
  intros Hbody. induction count as [|count IH]; intros i; cbn [for_range].
  - apply replays_ret.
  - apply replays_bind; [apply Hbody | intros _; apply IH].
Qed.

Lemma replays_FindTextureSlot_from (t : string) :
  forall (remaining : nat) (index : Z),
    replays (FindTextureSlot_from remaining index t).
Proof.
  induction remaining as [|remaining IH]; intros index; cbn [FindTextureSlot_from].
  - apply replays_ret.
  - apply replays_bind; [apply replays_texture_at|].
    intros e. destruct (String.eqb (tag e) t); [apply replays_ret | apply IH].
Qed.

Lemma replays_FindMaterial_from (t : string) :
  forall (remaining : nat) (index : Z) (material : OBJECT_MATERIAL),
    replays (FindMaterial_from remaining index t material).
Proof.
  induction remaining as [|remaining IH]; intros index material;
    cbn [FindMaterial_from].
  - apply replays_ret.
  - apply replays_bind; [apply replays_material_at|].
    intros e. destruct (String.eqb (mtag e) t); [apply replays_ret | apply IH].
Qed.

Lemma replays_FindTextureSlot (t : string) : replays (FindTextureSlot t).
Proof.
  unfold FindTextureSlot. apply replays_bind; [apply replays_loadedTextures|].
  intros n. apply replays_FindTextureSlot_from.
Qed.

Lemma replays_FindMaterial (t : string) (material : OBJECT_MATERIAL) :
  replays (FindMaterial t material).
Proof.
  unfold FindMaterial. apply replays_bind; [apply replays_materials_size|].
  intros size. destruct (Nat.eqb size 0); [apply replays_ret|].
  apply replays_bind; [apply replays_FindMaterial_from|].
  intros m. apply replays_ret.
Qed.

Lemma replays_BindGLTextures : replays BindGLTextures.
Proof.
  unfold BindGLTextures. apply replays_bind; [apply replays_loadedTextures|].
  intros n. apply replays_for_range. intros i. unfold BindGLTextures_body.
  apply replays_bind; [apply replays_call|]. intros _.
  apply replays_bind; [apply replays_texture_at|]. intros e.
  apply replays_call.
Qed.

Lemma replays_SetTransformations (s : glm.vec3) (rx ry rz : R) (t : glm.vec3) :
  replays (SetTransformations s rx ry rz t).
Proof.
  unfold SetTransformations. apply replays_bind; [apply replays_present|].
  intros [|]; [apply replays_shader_set | apply replays_ret].
Qed.

Lemma replays_SetShaderColor (r g b a : R) : replays (SetShaderColor r g b a).
Proof.
  unfold SetShaderColor. apply replays_bind; [apply replays_present|].
  intros [|]; [|apply replays_ret].
  apply replays_bind; [apply replays_shader_set|]. intros _.
  apply replays_shader_set.
Qed.

Lemma replays_SetShaderTexture (t : string) : replays (SetShaderTexture t).
Proof.
  unfold SetShaderTexture. apply replays_bind; [apply replays_present|].
  intros [|]; [|apply replays_ret].
  apply replays_bind; [apply replays_shader_set|]. intros _.
  apply replays_bind; [apply replays_FindTextureSlot|]. intros slot.
  apply replays_shader_set.
Qed.

Lemma replays_SetShaderMaterial (u : OBJECT_MATERIAL) (t : string) :
  replays (SetShaderMaterial u t).
Proof.
  unfold SetShaderMaterial. apply replays_bind; [apply replays_materials_size|].
  intros size. destruct (0 <? size)%nat; [|apply replays_ret].
  apply replays_bind; [apply replays_FindMaterial|].
  intros [[|] m]; [|apply replays_ret].
  apply replays_bind; [apply replays_shader_set|]. intros _.
  apply replays_bind; [apply replays_shader_set|]. intros _.
  apply replays_shader_set.
Qed.

Create HintDb replay.
Hint Resolve replays_BindGLTextures replays_SetTransformations
  replays_SetShaderColor replays_SetShaderTexture replays_SetShaderMaterial
  replays_call : replay.


(** *** The render phase returns *)

Lemma renderable_same_scene (st st' : State) :
  same_scene st st' -> renderable st -> renderable st'.
Proof.
  intros (Hp & Ha & Hn & _) [[Hlen Hcnt] Hpres].
  unfold renderable, within_capacity. rewrite <- Hp, <- Ha, <- Hn. auto.
Qed.

Lemma replays_same_scene {A} (c : M A) (st st' : State) (a : A) :
  replays c -> c st = Returns (a, st') -> same_scene st st'.
Proof.
  intros Hc Hrun. specialize (Hc st st (same_scene_refl st)).
  rewrite Hrun in Hc. apply Hc.
Qed.

Lemma runs_ret {A} (a : A) : runs (ret a).
Proof. intros st _. now exists a, st. Qed.

Lemma runs_bind {A B} (c : M A) (k : A -> M B) :
  replays c -> runs c -> (forall a, runs (k a)) -> runs (bind c k).
Proof.
  intros Hrep Hc Hk st Hst. destruct (Hc st Hst) as (a & st' & Hrun).
  unfold bind. rewrite Hrun. apply Hk.
  eapply renderable_same_scene; [|exact Hst].
  eapply replays_same_scene; eassumption.
Qed.

Lemma runs_call (c : Call) : runs (call c).
Proof. intros st _. eexists _, _. reflexivity. Qed.

Lemma runs_gets {A} (proj : State -> A) : runs (gets proj).
Proof. intros st _. eexists _, _. reflexivity. Qed.

Lemma runs_shader_set (name : string) (value : Uniform) :
  runs (shader_set name value).
Proof.
  intros st [_ Hp]. unfold present in Hp. unfold shader_set.
  destruct (m_pShaderManager st); [|discriminate]. eexists _, _. reflexivity.
Qed.

Lemma runs_FindTextureSlot (t : string) : runs (FindTextureSlot t).
Proof.
  intros st [Hwf _]. eexists _, _. now apply FindTextureSlot_first_index.
Qed.

Lemma FindMaterial_from_returns (t : string) (st : State) :
  forall (remaining : nat) (index : Z) (material : OBJECT_MATERIAL),
    0 <= index ->
    (Z.to_nat index + remaining <= length (m_objectMaterials st))%nat ->
    exists m, FindMaterial_from remaining index t material st = Returns (m, st).
Proof.
  induction remaining as [|remaining IH]; intros index material Hi Hlen.
  - now exists material.
  - destruct (lookup_lt_is_Some_2 (m_objectMaterials st) (Z.to_nat index))
      as [e He]; [lia|].
    cbn [FindMaterial_from]. unfold bind.
    rewrite (material_at_Some _ _ _ Hi He).
    destruct (String.eqb (mtag e) t); [eexists; reflexivity|].
    apply IH; lia.
Qed.

(** [FindMaterial] returns in every state. *)
Lemma FindMaterial_returns (t : string) (material : OBJECT_MATERIAL) (st : State) :
  exists found, FindMaterial t material st = Returns (found, st).
Proof.
  unfold FindMaterial, bind, gets.
  destruct (Nat.eqb (length (m_objectMaterials st)) 0); [eexists; reflexivity|].
  destruct (FindMaterial_from_returns t st (length (m_objectMaterials st)) 0 material)
    as [m Hm]; [lia | simpl; lia |].
  rewrite Hm. eexists. reflexivity.
Qed.

(** When some material carries the tag, what [FindMaterial_from] hands
    back does not depend on the colours and shininess passed in. *)
Lemma FindMaterial_from_hit_same (t : string) (st : State)
    (m1 m2 : OBJECT_MATERIAL) :
  mtag m1 = mtag m2 ->
  forall (remaining : nat) (index : Z) (k : nat) (e : OBJECT_MATERIAL),
    0 <= index ->
    (k < remaining)%nat ->
    m_objectMaterials st !! (Z.to_nat index + k)%nat = Some e ->
    mtag e = t ->
    FindMaterial_from remaining index t m1 st =
    FindMaterial_from remaining index t m2 st.
Proof.
  intros Htag. induction remaining as [|remaining IH]; intros index k e Hi Hk He Ht.
  - lia.
  - destruct (lookup_lt_is_Some_2 (m_objectMaterials st) (Z.to_nat index))
      as [e0 He0]; [apply lookup_lt_Some in He; lia|].
    cbn [FindMaterial_from]. unfold bind.
    rewrite (material_at_Some _ _ _ Hi He0).
    destruct (String.eqb (mtag e0) t) eqn:E; [now rewrite Htag|].
    destruct k as [|k].
    + rewrite Nat.add_0_r in He. rewrite He0 in He. injection He as ->.
      apply String.eqb_neq in E. contradiction.
    + apply (IH (index + 1) k e); [lia | lia | | exact Ht].
      rewrite <- He. f_equal. lia.
Qed.

(** [SetShaderMaterial] does not test the pointer: with materials defined
    and no shader manager, it calls through the null pointer. *)
Lemma SetShaderMaterial_null_pointer (st : State) (materialTag : string) :
  m_pShaderManager st = None ->
  m_objectMaterials st <> [] ->
  SetShaderMaterial indeterminate materialTag st = Undefined NullPointer.
Proof.
  intros Hnull Hne.
  assert (Hsize : exists n, length (m_objectMaterials st) = S n).
  { destruct (m_objectMaterials st); [congruence | eexists; reflexivity]. }
  destruct Hsize as [n Hsize].
  unfold SetShaderMaterial. unfold bind at 1. unfold gets.
  rewrite Hsize. cbn [Nat.ltb Nat.leb].
  unfold bind at 1. unfold FindMaterial, bind, gets.
  rewrite Hsize. cbn [Nat.eqb].
  match goal with
  | |- context [FindMaterial_from (S n) 0 ?t ?m st] =>
      destruct (FindMaterial_from_returns t st (S n) 0 m) as [m' Hm];
        [lia | simpl; lia | rewrite Hm]
  end.
  unfold ret, setVec3Value, shader_set. now rewrite Hnull.
Qed.

Lemma runs_FindMaterial (t : string) (material : OBJECT_MATERIAL) :
  runs (FindMaterial t material).
Proof.
  intros st _. destruct (FindMaterial_returns t material st) as [found H].
  now exists found, st.
Qed.

Lemma BindGLTextures_loop_returns :
  forall (count : nat) (i : Z) (st : State),
    0 <= i ->
    (Z.to_nat i + count <= length (m_textureIDs st))%nat ->
    exists st', for_range count i BindGLTextures_body st = Returns (tt, st').
Proof.
  induction count as [|count IH]; intros i st Hi Hlen.
  - now exists st.
  - destruct (lookup_lt_is_Some_2 (m_textureIDs st) (Z.to_nat i)) as [e He]; [lia|].
    cbn [for_range]. unfold bind at 1. unfold BindGLTextures_body at 1.
    rewrite bind_call. unfold bind at 1.
    erewrite texture_at_Some; [|exact Hi|cbn; exact He].
    cbn [call modify]. apply IH; [lia | cbn; lia].
Qed.

Lemma runs_BindGLTextures : runs BindGLTextures.
Proof.
  intros st [[Hlen Hn] _]. unfold BindGLTextures, bind, gets.
  destruct (BindGLTextures_loop_returns (Z.to_nat (m_loadedTextures st)) 0 st)
    as [st' H]; [lia | unfold TEXTURE_SLOTS in *; simpl; lia |].
  exists tt, st'. exact H.
Qed.

Lemma runs_SetTransformations (s : glm.vec3) (rx ry rz : R) (t : glm.vec3) :
  runs (SetTransformations s rx ry rz t).
Proof.
  unfold SetTransformations.
  apply runs_bind; [apply replays_present | apply runs_gets |].
  intros [|]; [apply runs_shader_set | apply runs_ret].
Qed.

Lemma runs_SetShaderColor (r g b a : R) : runs (SetShaderColor r g b a).
Proof.
  unfold SetShaderColor.
  apply runs_bind; [apply replays_present | apply runs_gets |].
  intros [|]; [|apply runs_ret].
  apply runs_bind; [apply replays_shader_set | apply runs_shader_set |].
  intros _. apply runs_shader_set.
Qed.

Lemma runs_SetShaderTexture (t : string) : runs (SetShaderTexture t).
Proof.
  unfold SetShaderTexture.
  apply runs_bind; [apply replays_present | apply runs_gets |].
  intros [|]; [|apply runs_ret].
  apply runs_bind; [apply replays_shader_set | apply runs_shader_set |].
  intros _.
  apply runs_bind; [apply replays_FindTextureSlot | apply runs_FindTextureSlot |].
  intros slot. apply runs_shader_set.
Qed.

Lemma runs_SetShaderMaterial (u : OBJECT_MATERIAL) (t : string) :
  runs (SetShaderMaterial u t).
Proof.
  unfold SetShaderMaterial.
  apply runs_bind; [apply replays_materials_size | apply runs_gets |].
  intros size. destruct (0 <? size)%nat; [|apply runs_ret].
  apply runs_bind; [apply replays_FindMaterial | apply runs_FindMaterial |].
  intros [[|] m]; [|apply runs_ret].
  apply runs_bind; [apply replays_shader_set | apply runs_shader_set |].
  intros _.
  apply runs_bind; [apply replays_shader_set | apply runs_shader_set |].
  intros _. apply runs_shader_set.
Qed.

Create HintDb render.
Hint Resolve runs_BindGLTextures runs_SetTransformations
  runs_SetShaderColor runs_SetShaderTexture runs_SetShaderMaterial
  runs_call : render.

Lemma runs_RenderScene : runs RenderScene.
Proof.
  unfold RenderScene, DrawBoxMesh, DrawPyramid4Mesh, DrawConeMesh,
    DrawHalfSphereMesh, DrawPlaneMesh, DrawSphereMesh, DrawCylinderMesh,
    DrawTaperedCylinderMesh.
  repeat (apply runs_bind;
          [solve [auto with replay] | solve [auto with render]
          | intros _; cbv zeta]).
  auto with render.
Qed.

End Scene.

(** ** The prepared scene

    The state [LoadSceneTextures] and [DefineObjectMaterials] leave, from a
    new scene manager with an empty sink, in the demonstration
    environment. *)

Definition prepared_scene : State :=
  match (LoadSceneTextures demo_stbi_load demo_glFreshName ;;; DefineObjectMaterials)
          (SceneManager_new (Some empty_sink) [] []) with
  | Returns (_, st) => st
  | Undefined _ => SceneManager_new (Some empty_sink) [] []
  end.

(** ** The uninitialised local of SetShaderMaterial

    Its content reaches the sink only on a miss in a non-empty material
    list.  The materials [DefineObjectMaterials] sets up cover every tag
    [RenderScene] asks for, and then [RenderScene] does the same whatever
    its calls find in that local.  With materials that miss those tags the
    content is written at every call, and two passes need not log the
    same calls. *)

Lemma SetShaderMaterial_ignores_indeterminate (u1 u2 : OBJECT_MATERIAL)
    (t : string) (st : State) :
  defines st t ->
  SetShaderMaterial u1 t st = SetShaderMaterial u2 t st.
Proof.
  intros [Hempty|(e & Hin & Ht)].
  - now rewrite !SetShaderMaterial_empty.
  - apply list_elem_of_lookup in Hin as [k Hk].
    unfold SetShaderMaterial, bind, gets.
    destruct (0 <? length (m_objectMaterials st))%nat; [|reflexivity].
    unfold FindMaterial, bind, gets.
    destruct (Nat.eqb (length (m_objectMaterials st)) 0); [reflexivity|].
    rewrite (FindMaterial_from_hit_same t st
               {| diffuseColor := diffuseColor u1; specularColor := specularColor u1;
                  shininess := shininess u1; mtag := "" |}
               {| diffuseColor := diffuseColor u2; specularColor := specularColor u2;
                  shininess := shininess u2; mtag := "" |}
               eq_refl _ 0 k e);
      [reflexivity | lia | apply lookup_lt_Some in Hk; exact Hk | exact Hk | exact Ht].
Qed.

Lemma defines_same_scene (st st' : State) (t : string) :
  same_scene st st' -> defines st t -> defines st' t.
Proof. intros (_ & _ & _ & Hm) H. unfold defines in *. now rewrite <- Hm. Qed.

Lemma agree_refl {A} (c : M A) : agree c c.
Proof. intros st _. reflexivity. Qed.

Lemma agree_bind {A B} (c1 c2 : M A) (k1 k2 : A -> M B) :
  replays c1 -> agree c1 c2 -> (forall a, agree (k1 a) (k2 a)) ->
  agree (bind c1 k1) (bind c2 k2).
Proof.
  intros Hrep Hc Hk st Hcov. unfold bind. rewrite <- (Hc st Hcov).
  destruct (c1 st) as [[a st']|f] eqn:E; [|reflexivity].
  apply Hk. intros t Ht. eapply defines_same_scene; [|exact (Hcov t Ht)].
  eapply replays_same_scene; eassumption.
Qed.

Lemma agree_SetShaderMaterial (u1 u2 : OBJECT_MATERIAL) (t : string) :
  t ∈ scene_material_tags ->
  agree (SetShaderMaterial u1 t) (SetShaderMaterial u2 t).
Proof.
  intros Ht st Hcov. apply SetShaderMaterial_ignores_indeterminate. now apply Hcov.
Qed.

Lemma RenderScene_ignores_indeterminate (u1 u2 : nat -> OBJECT_MATERIAL)
    (st : State) :
  covered st -> RenderScene u1 st = RenderScene u2 st.
Proof.
  revert st. change (agree (RenderScene u1) (RenderScene u2)).
  unfold RenderScene, DrawBoxMesh, DrawPyramid4Mesh, DrawConeMesh,
    DrawHalfSphereMesh, DrawPlaneMesh, DrawSphereMesh, DrawCylinderMesh,
    DrawTaperedCylinderMesh.
  repeat (apply agree_bind;
          [ first [ apply replays_BindGLTextures | apply replays_SetTransformations
                  | apply replays_SetShaderColor | apply replays_SetShaderTexture
                  | apply replays_SetShaderMaterial | apply replays_call ]
          | first [ apply agree_refl
                  | apply agree_SetShaderMaterial; vm_compute; set_solver ]
          | intros _; cbv zeta ]).
  apply agree_refl.
Qed.

(** The materials of the scene cover it. *)
Lemma DefineObjectMaterials_covered (st : State) :
  exists st',
    DefineObjectMaterials st = Returns (tt, st') /\
    mtag <$> m_objectMaterials st' =
      (mtag <$> m_objectMaterials st) ++ ["shinier"; "matte"; "gold"; "glass"] /\
    covered st'.
Proof.
  eexists. split.
  { cbv beta iota zeta delta [DefineObjectMaterials push_back bind modify].
    reflexivity. }
  assert (Htags : forall l : list OBJECT_MATERIAL, forall m1 m2 m3 m4,
            mtag <$> ((((l ++ [m1]) ++ [m2]) ++ [m3]) ++ [m4]) =
            (mtag <$> l) ++ [mtag m1; mtag m2; mtag m3; mtag m4]).
  { intros. rewrite !fmap_app, <- !app_assoc. reflexivity. }
  unfold set_objectMaterials. cbn [m_objectMaterials].
  split; [now rewrite Htags|].
  intros t Ht. right. cbn [m_objectMaterials].
  match goal with
  | |- exists e, e ∈ ?l /\ _ => assert (Hin : t ∈ mtag <$> l)
  end.
  { rewrite Htags. cbn [mtag]. apply elem_of_app. right.
    unfold scene_material_tags in Ht. rewrite !elem_of_cons in *. tauto. }
  apply list_elem_of_fmap in Hin as (e & -> & Hin). now exists e.
Qed.


(** *** A miss at every call

    When materials are defined and none of them carries a tag
    [RenderScene] asks for, each of its calls of [SetShaderMaterial]
    misses and writes what its own uninitialised local holds. *)























(** The destructor returns on every scene manager within capacity, and
    leaves the counter at 0. *)
Lemma SceneManager_destroy_returns (glFreshName : list Z -> Z) (st : State) :
  within_capacity st ->
  exists st', SceneManager_destroy glFreshName st = Returns (tt, st') /\
              m_loadedTextures st' = 0.
Proof.
  intros Hwf. unfold SceneManager_destroy, bind, modify.
  destruct (DestroyGLTextures_run glFreshName (set_pShaderManager None st))
    as (st' & Hrun & _ & H0 & _); [exact Hwf|].
  exists st'. now rewrite Hrun.
Qed.

(** ** The methods at work *)

(** C1.  Sixteen accepted calls on a new scene manager fill the sixteen
    slots; the seventeenth accepted call does not return [false]: it
    writes to index 16, outside the array. *)
Theorem CreateGLTexture_seventeenth_call :
  exists st,
    CreateGLTextures demo_stbi_load demo_glFreshName sixteen_requests
      (SceneManager_new None [] []) = Returns (replicate 16 true, st) /\
    m_loadedTextures st = 16 /\
    length (m_textureIDs st) = 16%nat /\
    CreateGLTexture demo_stbi_load demo_glFreshName "textures/wall.jpg" "wall" st
      = Undefined (OutOfBounds 16).
Proof.
  eexists. split; [vm_compute; reflexivity|].
  split; [reflexivity|]. split; [reflexivity|].
  vm_compute. reflexivity.
Qed.

(** C3.  After one texture is registered under the name 1,
    [DestroyGLTextures] leaves the name 1 alive in the context and makes
    the context hand out a second name; the counter is back to 0, the
    tag is no longer found, and a second [DestroyGLTextures] changes
    nothing. *)
Theorem DestroyGLTextures_releases_nothing :
  exists st st',
    CreateGLTexture demo_stbi_load demo_glFreshName "textures/plane.jpg"
      "planeTexture" (SceneManager_new None [] []) = Returns (true, st) /\
    gl_textures st = [1] /\
    DestroyGLTextures demo_glFreshName st = Returns (tt, st') /\
    gl_textures st' = [2; 1] /\
    calls st' = calls st ++ [glGenTextures 2] /\
    m_loadedTextures st' = 0 /\
    FindTextureSlot "planeTexture" st' = Returns (-1, st') /\
    FindTextureID "planeTexture" st' = Returns (-1, st') /\
    DestroyGLTextures demo_glFreshName st' = Returns (tt, st').
Proof.
  eexists. eexists. split; [vm_compute; reflexivity|].
  split; [reflexivity|].
  split; [vm_compute; reflexivity|].
  repeat split.
Qed.

(** C2.  On a sink that holds the values of "matte", a call of
    [SetShaderMaterial] with a tag that no material carries writes the
    three material uniforms again, with the content of its uninitialised
    local: the shininess in the sink changes from 0.05 to that content. *)
Theorem SetShaderMaterial_miss_overwrites :
  exists st1 st2,
    (DefineObjectMaterials ;;; SetShaderMaterial demo_indeterminate "matte")
      (SceneManager_new (Some empty_sink) [] []) = Returns (tt, st1) /\
    uniform_value "material.shininess" st1 = Some (UFloat 0.05) /\
    SetShaderMaterial demo_indeterminate "velvet" st1 = Returns (tt, st2) /\
    calls st2 = calls st1 ++
      [SetUniform "material.diffuseColor" (UVec3 (glm.Vec3 7 7 7));
       SetUniform "material.specularColor" (UVec3 (glm.Vec3 7 7 7));
       SetUniform "material.shininess" (UFloat 7)] /\
    uniform_value "material.shininess" st2 = Some (UFloat 7) /\
    uniform_value "material.shininess" st2 <> uniform_value "material.shininess" st1.
Proof.
  eexists. eexists. split; [vm_compute; reflexivity|].
  match goal with
  | |- ?a = ?b /\ _ => assert (H1 : a = b) by (vm_compute; reflexivity)
  end.
  split; [exact H1|].
  split; [vm_compute; reflexivity|].
  split; [vm_compute; reflexivity|].
  match goal with
  | |- ?a = ?b /\ _ => assert (H2 : a = b) by (vm_compute; reflexivity)
  end.
  split; [exact H2|].
  rewrite H1, H2. intros [= H]. lra.
Qed.

(** Three calls, the second on an unreadable file: the first and third
    tags get the slots 0 and 1. *)
Lemma FindTextureSlot_registration_index_witness :
  exists st,
    CreateGLTextures demo_stbi_load demo_glFreshName three_requests
      (SceneManager_new None [] []) =
      Returns (map (fun r => accepted demo_stbi_load (fst r)) three_requests, st) /\
    (forall (i : nat) (tag' : string),
       accepted_tags demo_stbi_load three_requests !! i = Some tag' ->
       FindTextureSlot tag' st = Returns (Z.of_nat i, st)) /\
    (forall tag' : string,
       tag' ∉ accepted_tags demo_stbi_load three_requests ->
       FindTextureSlot tag' st = Returns (-1, st)).
Proof.
  apply (FindTextureSlot_registration_index demo_stbi_load demo_glFreshName
           three_requests None [] []).
  - apply (bool_decide_unpack _). vm_compute. exact I.
  - vm_compute. lia.
Defined.

Lemma CreateGLTexture_failure_keeps_registry_witness :
  exists st',
    CreateGLTexture demo_stbi_load demo_glFreshName "textures/missing.jpg"
      "ghostTexture" (SceneManager_new None [] []) = Returns (false, st') /\
    m_textureIDs st' = m_textureIDs (SceneManager_new None [] []) /\
    m_loadedTextures st' = m_loadedTextures (SceneManager_new None [] []) /\
    registered st' = registered (SceneManager_new None [] []).
Proof.
  apply (CreateGLTexture_failure_keeps_registry demo_stbi_load demo_glFreshName).
  left. reflexivity.
Defined.

Lemma FindMaterial_miss_witness :
  FindMaterial "matte" demo_indeterminate (SceneManager_new None [] []) =
    Returns ((false, demo_indeterminate), SceneManager_new None [] []) /\
  FindMaterial "velvet" demo_indeterminate
    (set_objectMaterials [demo_indeterminate] (SceneManager_new None [] [])) =
    Returns ((true, demo_indeterminate),
             set_objectMaterials [demo_indeterminate] (SceneManager_new None [] [])).
Proof.
  split.
  - apply (proj1 (FindMaterial_miss (SceneManager_new None [] []) "matte"
                    demo_indeterminate)).
    reflexivity.
  - apply (proj2 (FindMaterial_miss
                    (set_objectMaterials [demo_indeterminate]
                       (SceneManager_new None [] []))
                    "velvet" demo_indeterminate)).
    + discriminate.
    + intros m Hm. apply list_elem_of_singleton in Hm. subst m. discriminate.
Defined.

Lemma SetShaderColor_SetShaderTexture_push_witness :
  (forall r g b a : R,
     SetShaderColor r g b a (SceneManager_new (Some empty_sink) [] []) =
       Returns (tt, pushed [(g_UseTextureName, UInt 0);
                            (g_ColorValueName, UVec4 (glm.Vec4 r g b a))]
                      empty_sink (SceneManager_new (Some empty_sink) [] []))) /\
  (forall textureTag : string,
     exists slot : Z,
       FindTextureSlot textureTag (SceneManager_new (Some empty_sink) [] []) =
         Returns (slot, SceneManager_new (Some empty_sink) [] []) /\
       (textureTag ∉ registered (SceneManager_new (Some empty_sink) [] []) ->
        slot = -1) /\
       SetShaderTexture textureTag (SceneManager_new (Some empty_sink) [] []) =
         Returns (tt, pushed [(g_UseTextureName, UInt 1);
                              (g_TextureValueName, USampler2D slot)]
                        empty_sink (SceneManager_new (Some empty_sink) [] []))).
Proof.
  destruct (SetShaderColor_SetShaderTexture_push
              (SceneManager_new (Some empty_sink) [] []) empty_sink eq_refl)
    as [Hcolor Htexture].
  split; [exact Hcolor|].
  apply Htexture. apply SceneManager_new_within_capacity.
Defined.

Lemma null_shader_manager_no_writes_witness :
  (forall scaleXYZ rx ry rz positionXYZ,
     SetTransformations scaleXYZ rx ry rz positionXYZ (SceneManager_new None [] [])
       = Returns (tt, SceneManager_new None [] [])) /\
  (forall r g b a,
     SetShaderColor r g b a (SceneManager_new None [] [])
       = Returns (tt, SceneManager_new None [] [])) /\
  (forall textureTag,
     SetShaderTexture textureTag (SceneManager_new None [] [])
       = Returns (tt, SceneManager_new None [] [])) /\
  (forall u v,
     SetTextureUVScale u v (SceneManager_new None [] [])
       = Returns (tt, SceneManager_new None [] [])).
Proof.
  apply (null_shader_manager_no_writes (SceneManager_new None [] [])).
  reflexivity.
Defined.





(** * Further properties of the scene manager *)

(** ** Vocabulary *)

(** The scan of [FindTextureID] in words: the texture name, read as an
    [int], of the first entry of [l] tagged [t], or -1. *)
Fixpoint first_id (t : string) (l : list TEXTURE_INFO) : Z :=
  match l with
  | [] => -1
  | e :: l' => if String.eqb (tag e) t then to_int (ID e) else first_id t l'
  end.

(** The occupied part of the texture array. *)
Definition occupied (st : State) : list TEXTURE_INFO :=
  take (Z.to_nat (m_loadedTextures st)) (m_textureIDs st).

(** The calls that bind the entries of [l] on the texture units [i],
    [i + 1], ... *)
Fixpoint bind_calls (i : Z) (l : list TEXTURE_INFO) : list Call :=
  match l with
  | [] => []
  | e :: l' => glActiveTexture i :: glBindTexture (ID e) :: bind_calls (i + 1) l'
  end.

(** Every occupied slot holds a texture name that is alive in the
    context. *)
Definition handles_alive (st : State) : Prop :=
  forall e, e ∈ occupied st -> ID e ∈ gl_textures st.

(** The record [FindMaterial] hands back when [e] is the match: the three
    values of [e], the tag of the record passed in. *)
Definition found_material (e material : OBJECT_MATERIAL) : OBJECT_MATERIAL :=
  {| diffuseColor := diffuseColor e; specularColor := specularColor e;
     shininess := shininess e; mtag := mtag material |}.

(** [e] is the first material of the list that carries the tag [t]. *)
Definition first_material (st : State) (t : string) (e : OBJECT_MATERIAL) : Prop :=
  exists k : nat,
    m_objectMaterials st !! k = Some e /\ mtag e = t /\
    forall (j : nat) (e' : OBJECT_MATERIAL),
      (j < k)%nat -> m_objectMaterials st !! j = Some e' -> mtag e' <> t.

(** The draw calls of a log, in order. *)
Fixpoint draws_of (log : list Call) : list (Mesh * list bool) :=
  match log with
  | [] => []
  | Draw mesh flags :: log' => (mesh, flags) :: draws_of log'
  | _ :: log' => draws_of log'
  end.

(** The calls the render phase makes: uniform writes, texture binds and
    draws. *)
Definition render_call (c : Call) : Prop :=
  match c with
  | SetUniform _ _ | glActiveTexture _ | glBindTexture _ | Draw _ _ => True
  | _ => False
  end.

(** A computation renders [ds] when, whenever it returns, it has left the
    texture array, its counter, the materials and the texture names of the
    context as they were, and has added to the log only render calls, the
    draws among them being [ds]. *)
Definition renders {A} (c : M A) (ds : list (Mesh * list bool)) : Prop :=
  forall st a st', c st = Returns (a, st') ->
    m_textureIDs st' = m_textureIDs st /\
    m_loadedTextures st' = m_loadedTextures st /\
    m_objectMaterials st' = m_objectMaterials st /\
    gl_textures st' = gl_textures st /\
    exists trace, calls st' = calls st ++ trace /\
                  draws_of trace = ds /\ Forall render_call trace.

(** The requests of [LoadSceneTextures], in order. *)
Definition scene_requests : list (string * string) :=
  [("textures/plane.jpg", "planeTexture"); ("textures/red.jpg", "redTexture");
   ("textures/circular-gold.jpg", "midTexture");
   ("textures/seamless-gold.jpg", "topTexture");
   ("textures/cork.jpg", "corkTexture"); ("textures/gold.jpg", "cupTexture");
   ("textures/stone.jpg", "bottleTexture"); ("textures/copper.jpg", "knobTexture");
   ("textures/white.jpg", "whiteTexture"); ("textures/white2.jpg", "lidTexture");
   ("textures/grip.jpg", "gripTexture"); ("textures/pot1.jpg", "pot1");
   ("textures/pot2.jpg", "pot2"); ("textures/wall.jpg", "wall")].

(** The draws of [RenderScene], one per scene element, in order. *)
Definition scene_draws : list (Mesh * list bool) :=
  [(BoxMesh, []); (BoxMesh, []); (PyramidMesh, []); (BoxMesh, []);
   (BoxMesh, []); (CylinderMesh, [false; true; true]);
   (CylinderMesh, [false; true; true]);
   (TaperedCylinderMesh, [false; false; true]);
   (TaperedCylinderMesh, [false; false; true]); (BoxMesh, []); (BoxMesh, []);
   (CylinderMesh, []); (TaperedCylinderMesh, []);
   (CylinderMesh, [false; true; true]); (ConeMesh, []); (HalfSphereMesh, []);
   (BoxMesh, []); (CylinderMesh, []); (CylinderMesh, []); (BoxMesh, []);
   (CylinderMesh, []); (CylinderMesh, []); (CylinderMesh, []);
   (PlaneMesh, []); (BoxMesh, []); (SphereMesh, [])].

(** The steps of the composed transform on a point. *)
Definition scale_point (s p : glm.vec3) : glm.vec3 :=
  glm.Vec3 (glm.x s * glm.x p) (glm.y s * glm.y p) (glm.z s * glm.z p).

Definition turn_x (theta : R) (p : glm.vec3) : glm.vec3 :=
  glm.Vec3 (glm.x p)
           (cos theta * glm.y p - sin theta * glm.z p)
           (sin theta * glm.y p + cos theta * glm.z p).

Definition turn_y (theta : R) (p : glm.vec3) : glm.vec3 :=
  glm.Vec3 (cos theta * glm.x p + sin theta * glm.z p)
           (glm.y p)
           (- sin theta * glm.x p + cos theta * glm.z p).

Definition turn_z (theta : R) (p : glm.vec3) : glm.vec3 :=
  glm.Vec3 (cos theta * glm.x p - sin theta * glm.y p)
           (sin theta * glm.x p + cos theta * glm.y p)
           (glm.z p).

Definition shift_point (t p : glm.vec3) : glm.vec3 :=
  glm.Vec3 (glm.x p + glm.x t) (glm.y p + glm.y t) (glm.z p + glm.z t).

Section More.

Variable stbi_load : string -> option Image.
Variable glFreshName : list Z -> Z.
Variable indeterminate : OBJECT_MATERIAL.
Variable uninitialised : nat -> OBJECT_MATERIAL.

(** ** Lookups in the texture registry *)

Lemma registered_occupied (st : State) : registered st = tag <$> occupied st.
Proof. reflexivity. Qed.

Lemma FindTextureID_from_first_id (t : string) (st : State) :
  forall (remaining : nat) (index : Z),
    0 <= index ->
    (Z.to_nat index + remaining <= length (m_textureIDs st))%nat ->
    FindTextureID_from remaining index t st =
      Returns (first_id t (take remaining (drop (Z.to_nat index) (m_textureIDs st))),
               st).
Proof.
  induction remaining as [|remaining IH]; intros index Hi Hlen.
  - reflexivity.
  - destruct (lookup_lt_is_Some_2 (m_textureIDs st) (Z.to_nat index)) as [e He];
      [lia|].
    cbn [FindTextureID_from]. unfold bind.
    rewrite (texture_at_Some _ _ _ Hi He).
    rewrite (drop_S _ _ _ He). cbn [take first_id].
    destruct (String.eqb (tag e) t); [reflexivity|].
    rewrite IH by lia.
    replace (Z.to_nat (index + 1)) with (S (Z.to_nat index)) by lia.
    reflexivity.
Qed.

Lemma FindTextureID_first_id (t : string) (st : State) :
  within_capacity st ->
  FindTextureID t st = Returns (first_id t (occupied st), st).
Proof.
  intros [Hlen Hn]. unfold FindTextureID, bind, gets.
  rewrite FindTextureID_from_first_id;
    [reflexivity | lia | unfold TEXTURE_SLOTS in *; simpl; lia].
Qed.

Lemma first_id_absent (t : string) (l : list TEXTURE_INFO) :
  t ∉ tag <$> l -> first_id t l = -1.
Proof.
  induction l as [|e l IH]; intros Hnot; [reflexivity|].
  cbn [first_id]. rewrite fmap_cons in Hnot.
  apply not_elem_of_cons in Hnot as [Hne Hnot].
  assert (He : tag e <> t) by congruence.
  apply String.eqb_neq in He. rewrite He. now apply IH.
Qed.

Lemma first_id_first (t : string) (l : list TEXTURE_INFO) :
  forall (i : nat) (e : TEXTURE_INFO),
    l !! i = Some e -> tag e = t ->
    (forall (j : nat) (e' : TEXTURE_INFO), (j < i)%nat -> l !! j = Some e' -> tag e' <> t) ->
    first_id t l = to_int (ID e).
Proof.
  induction l as [|x l IH]; intros i e He Ht Hfirst; [discriminate|].
  cbn [first_id]. destruct i as [|i].
  - injection He as ->. apply String.eqb_eq in Ht. now rewrite Ht.
  - assert (Hx : tag x <> t) by (apply (Hfirst 0%nat); [lia | reflexivity]).
    apply String.eqb_neq in Hx. rewrite Hx.
    apply (IH i e He Ht). intros j e' Hj He'. apply (Hfirst (S j)); [lia | exact He'].
Qed.

Lemma first_id_app (t : string) (l1 l2 : list TEXTURE_INFO) :
  t ∉ tag <$> l1 -> first_id t (l1 ++ l2) = first_id t l2.
Proof.
  induction l1 as [|e l1 IH]; intros Hnot; [reflexivity|].
  cbn [app first_id]. rewrite fmap_cons in Hnot.
  apply not_elem_of_cons in Hnot as [Hne Hnot].
  assert (He : tag e <> t) by congruence.
  apply String.eqb_neq in He. rewrite He. now apply IH.
Qed.

Lemma first_index_app_absent (t : string) (l1 l2 : list string) :
  forall i : Z,
    t ∉ l1 -> first_index t (l1 ++ l2) i = first_index t l2 (i + Z.of_nat (length l1)).
Proof.
  induction l1 as [|x l1 IH]; intros i Hnot.
  - cbn. f_equal. lia.
  - cbn [app first_index length]. apply not_elem_of_cons in Hnot as [Hne Hnot].
    assert (Hx : x <> t) by congruence.
    apply String.eqb_neq in Hx. rewrite Hx, IH by exact Hnot. f_equal. lia.
Qed.

Lemma first_index_app_present (t : string) (l1 l2 : list string) :
  forall i : Z, t ∈ l1 -> first_index t (l1 ++ l2) i = first_index t l1 i.
Proof.
  induction l1 as [|x l1 IH]; intros i Hin; [now apply elem_of_nil in Hin|].
  cbn [app first_index]. destruct (String.eqb x t) eqn:E; [reflexivity|].
  apply IH. apply elem_of_cons in Hin as [->|Hin]; [|exact Hin].
  rewrite String.eqb_refl in E. discriminate.
Qed.

(** The index [first_index] gives for a tag of the list is in range and
    carries the tag. *)
Lemma first_index_present (t : string) (l : list string) :
  forall i : Z,
    t ∈ l ->
    exists k : nat, first_index t l i = i + Z.of_nat k /\
                    (k < length l)%nat /\ l !! k = Some t.
Proof.
  induction l as [|x l IH]; intros i Hin; [now apply elem_of_nil in Hin|].
  cbn [first_index]. destruct (String.eqb x t) eqn:E.
  - apply String.eqb_eq in E. subst x. exists 0%nat. cbn. repeat split; lia.
  - apply elem_of_cons in Hin as [->|Hin];
      [rewrite String.eqb_refl in E; discriminate|].
    destruct (IH (i + 1) Hin) as (k & Hk & Hlt & Hlook).
    exists (S k). cbn. repeat split; [lia | lia | exact Hlook].
Qed.

Lemma occupied_push (st st' : State) (e x : TEXTURE_INFO) :
  0 <= m_loadedTextures st ->
  m_textureIDs st !! Z.to_nat (m_loadedTextures st) = Some e ->
  m_textureIDs st' = <[Z.to_nat (m_loadedTextures st) := x]> (m_textureIDs st) ->
  m_loadedTextures st' = m_loadedTextures st + 1 ->
  occupied st' = occupied st ++ [x].
Proof.
  intros Hn He Harr Hcnt. unfold occupied. rewrite Harr, Hcnt.
  replace (Z.to_nat (m_loadedTextures st + 1))
    with (S (Z.to_nat (m_loadedTextures st))) by lia.
  rewrite (take_S_r _ _ x)
    by (apply list_lookup_insert_eq; apply lookup_lt_Some in He; exact He).
  now rewrite take_insert_ge by lia.
Qed.

Lemma registered_length (st : State) :
  within_capacity st -> length (registered st) = Z.to_nat (m_loadedTextures st).
Proof.
  intros [Hlen Hn]. unfold registered.
  rewrite length_fmap, length_take. unfold TEXTURE_SLOTS in *. lia.
Qed.

(** One accepted call in a state with a free slot: the state it leaves. *)
Lemma CreateGLTexture_pushes (st : State) (filename tag' : string) :
  within_capacity st ->
  m_loadedTextures st < 16 ->
  accepted stbi_load filename = true ->
  exists st',
    CreateGLTexture stbi_load glFreshName filename tag' st = Returns (true, st') /\
    within_capacity st' /\
    m_loadedTextures st' = m_loadedTextures st + 1 /\
    occupied st' =
      occupied st ++ [{| ID := glFreshName (gl_textures st); tag := tag' |}] /\
    gl_textures st' = glFreshName (gl_textures st) :: gl_textures st /\
    m_objectMaterials st' = m_objectMaterials st /\
    m_pShaderManager st' = m_pShaderManager st.
Proof.
  intros [Hlen Hn] Hfree Hacc.
  destruct (lookup_lt_is_Some_2 (m_textureIDs st)
              (Z.to_nat (m_loadedTextures st))) as [e He];
    [unfold TEXTURE_SLOTS in *; lia|].
  destruct (CreateGLTexture_free_slot stbi_load glFreshName st filename tag' e
              Hacc (proj1 Hn) He)
    as (st' & Hrun & Harr & Hcnt & Hmat & Hsm & Hgl).
  exists st'. split; [exact Hrun|].
  split; [split; [rewrite Harr, length_insert; exact Hlen
                 | rewrite Hcnt; unfold TEXTURE_SLOTS in *; lia]|].
  split; [exact Hcnt|].
  split; [exact (occupied_push st st' e _ (proj1 Hn) He Harr Hcnt)|].
  auto.
Qed.

(** [FindTextureID] hands back the texture name, read as an [int], of the
    first occupied slot that carries the tag, and -1 for a tag no
    occupied slot carries. *)
Theorem FindTextureID_first_match (st : State) (t : string) :
  within_capacity st ->
  (t ∉ registered st -> FindTextureID t st = Returns (-1, st)) /\
  (forall (i : nat) (e : TEXTURE_INFO),
     occupied st !! i = Some e -> tag e = t ->
     (forall (j : nat) (e' : TEXTURE_INFO),
        (j < i)%nat -> occupied st !! j = Some e' -> tag e' <> t) ->
     FindTextureID t st = Returns (to_int (ID e), st)).
Proof.
  intros Hwf. split.
  - intros Hnot. rewrite FindTextureID_first_id by exact Hwf.
    now rewrite first_id_absent.
  - intros i e He Ht Hfirst. rewrite FindTextureID_first_id by exact Hwf.
    now rewrite (first_id_first t _ i e He Ht Hfirst).
Qed.

(** Register, then look up: an accepted call with a new tag, while a slot
    is free, puts the tag in the slot the counter named, and both lookups
    find it there. *)
Theorem CreateGLTexture_then_lookup (st : State) (filename tag' : string) :
  within_capacity st ->
  m_loadedTextures st < 16 ->
  accepted stbi_load filename = true ->
  tag' ∉ registered st ->
  exists st',
    CreateGLTexture stbi_load glFreshName filename tag' st = Returns (true, st') /\
    m_loadedTextures st' = m_loadedTextures st + 1 /\
    FindTextureSlot tag' st' = Returns (m_loadedTextures st, st') /\
    FindTextureID tag' st' = Returns (to_int (glFreshName (gl_textures st)), st').
Proof.
  intros Hwf Hfree Hacc Hnew.
  destruct (CreateGLTexture_pushes st filename tag' Hwf Hfree Hacc)
    as (st' & Hrun & Hwf' & Hcnt & Hocc & _).
  exists st'. split; [exact Hrun|]. split; [exact Hcnt|]. split.
  - rewrite FindTextureSlot_first_index by exact Hwf'.
    rewrite registered_occupied, Hocc, fmap_app, <- registered_occupied.
    rewrite first_index_app_absent by exact Hnew.
    cbn [fmap list_fmap tag first_index]. rewrite String.eqb_refl.
    rewrite registered_length by exact Hwf. destruct Hwf as [_ Hn].
    do 2 f_equal. lia.
  - rewrite FindTextureID_first_id by exact Hwf'.
    rewrite Hocc, first_id_app by exact Hnew.
    cbn [first_id tag ID]. now rewrite String.eqb_refl.
Qed.

(** Registering never moves a tag that is already registered: after an
    accepted call, every such tag still resolves to the slot it had, also
    when the new entry carries the same tag (the later entry is never
    found). *)
Theorem CreateGLTexture_keeps_slots (st : State) (filename tag' : string) :
  within_capacity st ->
  m_loadedTextures st < 16 ->
  accepted stbi_load filename = true ->
  exists st',
    CreateGLTexture stbi_load glFreshName filename tag' st = Returns (true, st') /\
    forall t : string,
      t ∈ registered st ->
      exists slot : Z,
        0 <= slot < m_loadedTextures st /\
        FindTextureSlot t st = Returns (slot, st) /\
        FindTextureSlot t st' = Returns (slot, st').
Proof.
  intros Hwf Hfree Hacc.
  destruct (CreateGLTexture_pushes st filename tag' Hwf Hfree Hacc)
    as (st' & Hrun & Hwf' & Hcnt & Hocc & _).
  exists st'. split; [exact Hrun|]. intros t Hin.
  exists (first_index t (registered st) 0).
  destruct (first_index_present t (registered st) 0 Hin) as (k & Hk & Hlt & _).
  rewrite registered_length in Hlt by exact Hwf.
  split; [rewrite Hk; destruct Hwf as [_ Hn]; lia|].
  split; [now apply FindTextureSlot_first_index|].
  rewrite FindTextureSlot_first_index by exact Hwf'.
  rewrite (registered_occupied st'), Hocc, fmap_app, <- registered_occupied.
  now rewrite first_index_app_present by exact Hin.
Qed.

(** For a registered tag [SetShaderTexture] writes a slot of the occupied
    range, one that carries the tag: never the value -1. *)
Theorem SetShaderTexture_registered_slot (st : State) (sm : ShaderManager)
    (t : string) :
  m_pShaderManager st = Some sm ->
  within_capacity st ->
  t ∈ registered st ->
  exists slot : Z,
    0 <= slot < m_loadedTextures st /\
    registered st !! Z.to_nat slot = Some t /\
    SetShaderTexture t st =
      Returns (tt, pushed [(g_UseTextureName, UInt 1);
                           (g_TextureValueName, USampler2D slot)] sm st).
Proof.
  intros Hsm Hwf Hin.
  destruct (first_index_present t (registered st) 0 Hin) as (k & Hk & Hlt & Hlook).
  rewrite registered_length in Hlt by exact Hwf.
  exists (first_index t (registered st) 0).
  split; [rewrite Hk; destruct Hwf as [_ Hn]; lia|].
  split; [rewrite Hk; replace (Z.to_nat (0 + Z.of_nat k)) with k by lia; exact Hlook|].
  unfold SetShaderTexture, bind.
  rewrite (present_Some _ _ Hsm).
  unfold setIntValue, setSampler2DValue.
  rewrite (shader_set_pushed _ _ _ _ Hsm).
  rewrite FindTextureSlot_first_index by exact Hwf.
  rewrite (shader_set_pushed _ _ _ _ (pushed_present _ _ _)).
  now rewrite pushed_pushed.
Qed.

(** ** The failure paths of CreateGLTexture *)

Lemma set_calls_app (l l' : list Call) (st : State) :
  set_calls (calls (set_calls l st) ++ l') (set_calls l st) = set_calls (l ++ l') st.
Proof. reflexivity. Qed.

Lemma set_calls_gen (l l' : list Call) (g : list Z) (st : State) :
  set_calls (calls (set_calls l st) ++ l') (set_gl_textures g (set_calls l st)) =
  set_calls (l ++ l') (set_gl_textures g st).
Proof. reflexivity. Qed.

Lemma CreateGLTexture_undecodable (st : State) (filename tag' : string) :
  stbi_load filename = None ->
  CreateGLTexture stbi_load glFreshName filename tag' st =
    Returns (false,
      set_calls (calls st ++ [stbi_set_flip_vertically_on_load true;
                              stbi_load_file filename]) st).
Proof.
  intros Hnone. unfold CreateGLTexture. rewrite Hnone.
  rewrite bind_call, bind_call, set_calls_app, <- app_assoc. reflexivity.
Qed.

Lemma CreateGLTexture_unsupported (st : State) (filename tag' : string)
    (image : Image) :
  stbi_load filename = Some image ->
  colorChannels image <> 3 -> colorChannels image <> 4 ->
  CreateGLTexture stbi_load glFreshName filename tag' st =
    Returns (false,
      set_calls (calls st ++ [stbi_set_flip_vertically_on_load true;
                              stbi_load_file filename;
                              glGenTextures (glFreshName (gl_textures st));
                              glBindTexture (glFreshName (gl_textures st));
                              glTexParameteri GL_TEXTURE_WRAP_S GL_REPEAT;
                              glTexParameteri GL_TEXTURE_WRAP_T GL_REPEAT;
                              glTexParameteri GL_TEXTURE_MIN_FILTER GL_LINEAR;
                              glTexParameteri GL_TEXTURE_MAG_FILTER GL_LINEAR])
        (set_gl_textures (glFreshName (gl_textures st) :: gl_textures st) st)).
Proof.
  intros Himg H3 H4. unfold CreateGLTexture. rewrite Himg.
  apply Z.eqb_neq in H3, H4. rewrite H3, H4.
  rewrite bind_call, bind_call, set_calls_app.
  rewrite bind_gl_GenTexture, gl_textures_set_calls, set_calls_gen.
  do 5 (rewrite bind_call, set_calls_app).
  rewrite <- !app_assoc. reflexivity.
Qed.

(** When the file does not decode, [CreateGLTexture] makes no OpenGL call.
    When it decodes with a channel count other than 3 and 4, the call
    returns right after the four [glTexParameteri] calls: the texture
    generated for it stays alive in the context and bound, and the image
    is not freed. *)
Theorem CreateGLTexture_failure_leftovers (st : State) (filename tag' : string) :
  (stbi_load filename = None ->
   exists st',
     CreateGLTexture stbi_load glFreshName filename tag' st = Returns (false, st') /\
     gl_textures st' = gl_textures st /\
     calls st' = calls st ++ [stbi_set_flip_vertically_on_load true;
                              stbi_load_file filename]) /\
  (forall image,
     stbi_load filename = Some image ->
     colorChannels image <> 3 -> colorChannels image <> 4 ->
     exists st',
       CreateGLTexture stbi_load glFreshName filename tag' st = Returns (false, st') /\
       gl_textures st' = glFreshName (gl_textures st) :: gl_textures st /\
       calls st' = calls st ++
         [stbi_set_flip_vertically_on_load true;
          stbi_load_file filename;
          glGenTextures (glFreshName (gl_textures st));
          glBindTexture (glFreshName (gl_textures st));
          glTexParameteri GL_TEXTURE_WRAP_S GL_REPEAT;
          glTexParameteri GL_TEXTURE_WRAP_T GL_REPEAT;
          glTexParameteri GL_TEXTURE_MIN_FILTER GL_LINEAR;
          glTexParameteri GL_TEXTURE_MAG_FILTER GL_LINEAR]).
Proof.
  split.
  - intros Hnone. eexists. split; [now apply CreateGLTexture_undecodable|].
    split; reflexivity.
  - intros image Himg H3 H4. eexists.
    split; [now apply (CreateGLTexture_unsupported st filename tag' image)|].
    split; reflexivity.
Qed.

(** ** Texture names *)

Lemma CreateGLTexture_rejects_occupied (st : State) (filename tag' : string) :
  accepted stbi_load filename = false ->
  exists st',
    CreateGLTexture stbi_load glFreshName filename tag' st = Returns (false, st') /\
    m_textureIDs st' = m_textureIDs st /\
    m_loadedTextures st' = m_loadedTextures st /\
    (forall h, h ∈ gl_textures st -> h ∈ gl_textures st').
Proof.
  intros Hacc.
  destruct (accepted_false _ _ Hacc) as [Hnone|(image & Himg & H3 & H4)].
  - eexists. split; [now apply CreateGLTexture_undecodable|]. auto.
  - eexists.
    split; [now apply (CreateGLTexture_unsupported st filename tag' image)|].
    cbn. repeat split. intros h Hh. now apply list_elem_of_further.
Qed.

(** Through any sequence of [CreateGLTexture] calls that fits the array,
    every occupied slot keeps holding a texture name that is alive in the
    context. *)
Theorem CreateGLTextures_handles_alive (requests : list (string * string)) :
  forall st : State,
    within_capacity st ->
    handles_alive st ->
    (Z.to_nat (m_loadedTextures st) + length (accepted_tags stbi_load requests)
       <= TEXTURE_SLOTS)%nat ->
    exists st',
      CreateGLTextures stbi_load glFreshName requests st =
        Returns (map (fun r => accepted stbi_load (fst r)) requests, st') /\
      within_capacity st' /\ handles_alive st'.
Proof.
  induction requests as [|[filename tag'] rest IH]; intros st Hwf Halive Hroom.
  - exists st. auto.
  - cbn [CreateGLTextures accepted_tags map fst] in *.
    destruct (accepted stbi_load filename) eqn:Hacc.
    + cbn [length] in Hroom.
      destruct (CreateGLTexture_pushes st filename tag' Hwf)
        as (st1 & Hrun & Hwf1 & Hcnt & Hocc & Hgl & _);
        [destruct Hwf as [_ Hn]; unfold TEXTURE_SLOTS in *; lia | exact Hacc |].
      destruct (IH st1) as (st' & Hrest & Hwf' & Halive'); [exact Hwf1 | | |].
      { intros e He. rewrite Hocc in He. rewrite Hgl.
        apply elem_of_app in He as [He|He].
        - apply list_elem_of_further. now apply Halive.
        - apply list_elem_of_singleton in He. subst e. apply list_elem_of_here. }
      { rewrite Hcnt. destruct Hwf as [_ Hn]. lia. }
      exists st'. unfold bind. rewrite Hrun, Hrest. auto.
    + destruct (CreateGLTexture_rejects_occupied st filename tag' Hacc)
        as (st1 & Hrun & Harr & Hcnt & Hgl).
      destruct (IH st1) as (st' & Hrest & Hwf' & Halive').
      { unfold within_capacity. now rewrite Harr, Hcnt. }
      { intros e He. apply Hgl, Halive. unfold occupied in *. now rewrite <- Harr, <- Hcnt. }
      { now rewrite Hcnt. }
      exists st'. unfold bind. rewrite Hrun, Hrest. auto.
Qed.

(** ** Binding and destroying *)

Lemma set_calls_nil (st : State) : set_calls (calls st ++ []) st = st.
Proof. destruct st. unfold set_calls. cbn. now rewrite app_nil_r. Qed.

Lemma BindGLTextures_loop_calls :
  forall (count : nat) (i : Z) (st : State),
    0 <= i ->
    (Z.to_nat i + count <= length (m_textureIDs st))%nat ->
    for_range count i BindGLTextures_body st =
      Returns (tt, set_calls
                     (calls st ++
                      bind_calls i (take count (drop (Z.to_nat i) (m_textureIDs st))))
                     st).
Proof.
  induction count as [|count IH]; intros i st Hi Hlen.
  - cbn. now rewrite set_calls_nil.
  - destruct (lookup_lt_is_Some_2 (m_textureIDs st) (Z.to_nat i)) as [e He]; [lia|].
    cbn [for_range]. unfold bind at 1. unfold BindGLTextures_body at 1.
    rewrite bind_call. unfold bind at 1.
    erewrite texture_at_Some; [|exact Hi|cbn; exact He].
    cbn [call modify]. rewrite IH; [|lia|cbn; lia].
    rewrite (drop_S _ _ _ He). cbn [take bind_calls].
    replace (Z.to_nat (i + 1)) with (S (Z.to_nat i)) by lia.
    unfold set_calls. cbn. now rewrite <- !app_assoc.
Qed.

Lemma BindGLTextures_run (st : State) :
  within_capacity st ->
  BindGLTextures st =
    Returns (tt, set_calls (calls st ++ bind_calls 0 (occupied st)) st).
Proof.
  intros [Hlen Hn]. unfold BindGLTextures, bind, gets.
  rewrite BindGLTextures_loop_calls;
    [reflexivity | lia | unfold TEXTURE_SLOTS in *; simpl; lia].
Qed.

(** [BindGLTextures] binds the texture of slot 0 on unit 0, of slot 1 on
    unit 1, and so on through the occupied slots, and changes nothing but
    the log. *)
Theorem BindGLTextures_slot_order (st : State) :
  within_capacity st ->
  BindGLTextures st =
    Returns (tt, set_calls (calls st ++ bind_calls 0 (occupied st)) st).
Proof. apply BindGLTextures_run. Qed.

(** [DestroyGLTextures] returns from every state within capacity; afterwards
    the counter is 0, no tag is found by either lookup, and a second call
    leaves the state as it is.  It deletes no texture: every name alive
    before is alive after, together with one new name per slot that was
    occupied. *)
Theorem DestroyGLTextures_empties_registry (st : State) :
  within_capacity st ->
  exists st',
    DestroyGLTextures glFreshName st = Returns (tt, st') /\
    m_loadedTextures st' = 0 /\
    (forall t, FindTextureSlot t st' = Returns (-1, st')) /\
    (forall t, FindTextureID t st' = Returns (-1, st')) /\
    DestroyGLTextures glFreshName st' = Returns (tt, st') /\
    (forall h, h ∈ gl_textures st -> h ∈ gl_textures st') /\
    length (gl_textures st') =
      (length (gl_textures st) + Z.to_nat (m_loadedTextures st))%nat.
Proof.
  intros Hwf.
  destruct (DestroyGLTextures_run glFreshName st Hwf)
    as (st' & Hrun & Hwf' & H0 & Hgl & Hcnt & _).
  destruct (DestroyGLTextures_then_lookups glFreshName st' Hwf' H0)
    as (Hslot & Hid & Hagain).
  exists st'. repeat split; assumption.
Qed.

(** The destructor returns from every state within capacity, with or
    without a shader manager: it clears the pointer, resets the counter,
    keeps the materials, and calls nothing but [glGenTextures]. *)
Theorem SceneManager_destroy_safe (st : State) :
  within_capacity st ->
  exists st',
    SceneManager_destroy glFreshName st = Returns (tt, st') /\
    m_pShaderManager st' = None /\
    m_loadedTextures st' = 0 /\
    m_objectMaterials st' = m_objectMaterials st /\
    (forall c, c ∈ calls st' -> c ∈ calls st \/ exists name, c = glGenTextures name).
Proof.
  intros [Hlen Hn]. unfold SceneManager_destroy, DestroyGLTextures, bind, modify, gets.
  destruct (DestroyGLTextures_loop glFreshName
              (Z.to_nat (m_loadedTextures st)) 0 (set_pShaderManager None st))
    as (st' & Hrun & _ & _ & Hm & Hp & _ & _ & Hcalls).
  { lia. }
  { cbn. unfold TEXTURE_SLOTS in *. lia. }
  cbn [m_loadedTextures set_pShaderManager]. rewrite Hrun.
  eexists. split; [reflexivity|]. cbn. auto.
Qed.

(** ** Materials *)

Lemma FindMaterial_from_first (t : string) (material : OBJECT_MATERIAL)
    (st : State) :
  forall (remaining : nat) (index : Z) (k : nat) (e : OBJECT_MATERIAL),
    0 <= index ->
    (k < remaining)%nat ->
    m_objectMaterials st !! (Z.to_nat index + k)%nat = Some e ->
    mtag e = t ->
    (forall (j : nat) (e' : OBJECT_MATERIAL), (j < k)%nat ->
       m_objectMaterials st !! (Z.to_nat index + j)%nat = Some e' -> mtag e' <> t) ->
    FindMaterial_from remaining index t material st =
      Returns (found_material e material, st).
Proof.
  induction remaining as [|remaining IH]; intros index k e Hi Hk He Ht Hfirst.
  - lia.
  - cbn [FindMaterial_from]. unfold bind.
    destruct k as [|k].
    + rewrite Nat.add_0_r in He. rewrite (material_at_Some _ _ _ Hi He).
      apply String.eqb_eq in Ht. now rewrite Ht.
    + destruct (lookup_lt_is_Some_2 (m_objectMaterials st) (Z.to_nat index))
        as [e0 He0]; [apply lookup_lt_Some in He; lia|].
      rewrite (material_at_Some _ _ _ Hi He0).
      assert (Hne : mtag e0 <> t).
      { apply (Hfirst 0%nat); [lia|]. now rewrite Nat.add_0_r. }
      apply String.eqb_neq in Hne. rewrite Hne.
      apply (IH (index + 1) k e); [lia | lia | | exact Ht |].
      * rewrite <- He. f_equal. lia.
      * intros j e' Hj He'. apply (Hfirst (S j)); [lia|].
        rewrite <- He'. f_equal. lia.
Qed.

Lemma FindMaterial_first (st : State) (t : string) (e material : OBJECT_MATERIAL) :
  first_material st t e ->
  FindMaterial t material st = Returns ((true, found_material e material), st).
Proof.
  intros (k & Hk & Ht & Hfirst). unfold FindMaterial, bind, gets.
  pose proof (lookup_lt_Some _ _ _ Hk) as Hlt.
  destruct (Nat.eqb (length (m_objectMaterials st)) 0) eqn:E;
    [apply Nat.eqb_eq in E; lia|].
  now rewrite (FindMaterial_from_first t material st _ 0 k e).
Qed.

(** First match wins: [FindMaterial] returns [true] and hands back the
    diffuse colour, specular colour and shininess of the first material
    that carries the tag; the tag field of the caller's record is left as
    it was. *)
Theorem FindMaterial_first_match (st : State) (t : string)
    (e material : OBJECT_MATERIAL) :
  first_material st t e ->
  FindMaterial t material st =
    Returns ((true, {| diffuseColor := diffuseColor e;
                       specularColor := specularColor e;
                       shininess := shininess e;
                       mtag := mtag material |}), st).
Proof. apply FindMaterial_first. Qed.

(** With a shader manager attached, [SetShaderMaterial] on a defined tag
    writes the diffuse colour, the specular colour and the shininess of
    the first material that carries the tag, in this order, and nothing
    else changes; the content of its uninitialised local plays no part. *)
Theorem SetShaderMaterial_hit_writes (st : State) (sm : ShaderManager)
    (t : string) (e : OBJECT_MATERIAL) :
  m_pShaderManager st = Some sm ->
  first_material st t e ->
  SetShaderMaterial indeterminate t st =
    Returns (tt, pushed [("material.diffuseColor", UVec3 (diffuseColor e));
                         ("material.specularColor", UVec3 (specularColor e));
                         ("material.shininess", UFloat (shininess e))] sm st).
Proof.
  intros Hsm Hfirst. unfold SetShaderMaterial.
  unfold bind at 1. unfold gets.
  destruct Hfirst as (k & Hk & Hrest).
  pose proof (lookup_lt_Some _ _ _ Hk) as Hlt.
  destruct (0 <? length (m_objectMaterials st))%nat eqn:E;
    [|apply Nat.ltb_ge in E; lia].
  unfold bind at 1.
  rewrite (FindMaterial_first st t e) by (exists k; auto).
  exact (material_writes_pushed st sm (found_material e _) Hsm).
Qed.

(** [SetShaderMaterial] does not test the pointer.  With no material
    defined it returns with the state unchanged, shader manager or not;
    with a material defined and a null pointer it calls through the null
    pointer. *)
Theorem SetShaderMaterial_unguarded (st : State) (t : string) :
  (m_objectMaterials st = [] ->
   SetShaderMaterial indeterminate t st = Returns (tt, st)) /\
  (m_objectMaterials st <> [] -> m_pShaderManager st = None ->
   SetShaderMaterial indeterminate t st = Undefined NullPointer).
Proof.
  split.
  - apply SetShaderMaterial_empty.
  - intros Hne Hnull. now apply SetShaderMaterial_null_pointer.
Qed.

Lemma first_material_app (st st' : State) (t : string) (e : OBJECT_MATERIAL)
    (added : list OBJECT_MATERIAL) :
  m_objectMaterials st' = m_objectMaterials st ++ added ->
  first_material st t e -> first_material st' t e.
Proof.
  intros Hadd (k & Hk & Ht & Hfirst). exists k. rewrite Hadd.
  pose proof (lookup_lt_Some _ _ _ Hk) as Hlt.
  split; [now rewrite lookup_app_l|]. split; [exact Ht|].
  intros j e' Hj He'. apply (Hfirst j e' Hj).
  now rewrite lookup_app_l in He' by lia.
Qed.

(** Materials are only ever appended, and a tag that is already defined
    keeps resolving to its first material: neither [push_back] of any
    material nor a further [DefineObjectMaterials] changes what
    [FindMaterial] hands back for it. *)
Theorem defined_material_is_kept (st : State) (t : string)
    (e : OBJECT_MATERIAL) :
  first_material st t e ->
  (forall new : OBJECT_MATERIAL,
     exists st',
       push_back new st = Returns (tt, st') /\
       forall material,
         FindMaterial t material st' =
           Returns ((true, found_material e material), st')) /\
  (exists st',
     DefineObjectMaterials st = Returns (tt, st') /\
     length (m_objectMaterials st') = (length (m_objectMaterials st) + 4)%nat /\
     forall material,
       FindMaterial t material st' =
         Returns ((true, found_material e material), st')).
Proof.
  intros Hfirst. split.
  - intros new. eexists. split; [reflexivity|].
    intros material. apply FindMaterial_first.
    eapply first_material_app; [|exact Hfirst]. reflexivity.
  - eexists. split.
    { cbv beta iota zeta delta [DefineObjectMaterials push_back bind modify].
      reflexivity. }
    unfold set_objectMaterials. cbn [m_objectMaterials].
    split; [rewrite !length_app; cbn; lia|].
    intros material. apply FindMaterial_first.
    eapply first_material_app; [|exact Hfirst].
    cbn [m_objectMaterials]. rewrite <- !app_assoc. reflexivity.
Qed.

(** ** LoadSceneTextures *)

Lemma CreateGLTextures_then {A} (k : M A) (requests : list (string * string)) :
  forall st : State,
    bind (CreateGLTextures stbi_load glFreshName requests) (fun _ => k) st =
    fold_right
      (fun r rest => bind (CreateGLTexture stbi_load glFreshName (fst r) (snd r))
                          (fun _ => rest))
      k requests st.
Proof.
  induction requests as [|[filename tag'] rest IH]; intros st; [reflexivity|].
  cbn [CreateGLTextures fold_right fst snd]. unfold bind at 1 2 4.
  destruct (CreateGLTexture stbi_load glFreshName filename tag' st)
    as [[ok st1]|f]; [|reflexivity].
  rewrite <- IH. unfold bind.
  destruct (CreateGLTextures stbi_load glFreshName rest st1) as [[oks st2]|f];
    reflexivity.
Qed.

Lemma LoadSceneTextures_requests (st : State) :
  LoadSceneTextures stbi_load glFreshName st =
    bind (CreateGLTextures stbi_load glFreshName scene_requests)
         (fun _ => BindGLTextures) st.
Proof. now rewrite CreateGLTextures_then. Qed.

Lemma accepted_tags_length (requests : list (string * string)) :
  (length (accepted_tags stbi_load requests) <= length requests)%nat.
Proof.
  induction requests as [|[filename tag'] rest IH]; [reflexivity|].
  cbn [accepted_tags length]. destruct (accepted stbi_load filename); cbn; lia.
Qed.

Lemma accepted_tags_all (requests : list (string * string)) :
  (forall r, r ∈ requests -> accepted stbi_load (fst r) = true) ->
  accepted_tags stbi_load requests = snd <$> requests.
Proof.
  induction requests as [|[filename tag'] rest IH]; intros Hall; [reflexivity|].
  cbn [accepted_tags].
  assert (H : accepted stbi_load filename = true)
    by (apply (Hall (filename, tag')); apply list_elem_of_here).
  rewrite H.
  rewrite IH; [reflexivity|]. intros r Hr. apply Hall. now apply list_elem_of_further.
Qed.

(** On a new scene manager [LoadSceneTextures] returns whatever the
    decoder does with the fourteen files: it cannot overrun the array.
    The tags of the files that were accepted occupy the first slots in
    the order of the calls; when all fourteen are accepted these are the
    slots 0 to 13. *)
Theorem LoadSceneTextures_fits
    (pShaderManager : option ShaderManager) (gl : list Z) (log : list Call) :
  exists st,
    LoadSceneTextures stbi_load glFreshName (SceneManager_new pShaderManager gl log)
      = Returns (tt, st) /\
    within_capacity st /\
    m_loadedTextures st <= 14 /\
    registered st = accepted_tags stbi_load scene_requests /\
    ((forall r, r ∈ scene_requests -> accepted stbi_load (fst r) = true) ->
     m_loadedTextures st = 14 /\
     forall (i : nat) (t : string),
       (snd <$> scene_requests) !! i = Some t ->
       FindTextureSlot t st = Returns (Z.of_nat i, st)).
Proof.
  destruct (SceneManager_new_within_capacity pShaderManager gl log) as [Hwf0 Hreg0].
  pose proof (accepted_tags_length scene_requests) as Hlen. cbn [length scene_requests] in Hlen.
  destruct (CreateGLTextures_registered stbi_load glFreshName scene_requests _ Hwf0)
    as (st1 & Hrun & Hwf1 & Hreg & _);
    [cbn [m_loadedTextures SceneManager_new Z.to_nat]; unfold TEXTURE_SLOTS; lia|].
  rewrite Hreg0 in Hreg. cbn [app] in Hreg.
  eexists. rewrite LoadSceneTextures_requests. unfold bind at 1. rewrite Hrun.
  split; [now apply BindGLTextures_run|].
  assert (Hcount : Z.to_nat (m_loadedTextures st1) =
                   length (accepted_tags stbi_load scene_requests)).
  { now rewrite <- registered_length, Hreg. }
  split; [exact Hwf1|].
  split; [cbn [m_loadedTextures set_calls]; destruct Hwf1 as [_ Hn]; lia|].
  split; [exact Hreg|].
  intros Hall. rewrite (accepted_tags_all _ Hall) in Hreg, Hcount.
  split; [cbn [m_loadedTextures set_calls]; rewrite length_fmap in Hcount;
          cbn [length scene_requests] in Hcount; destruct Hwf1 as [_ Hn]; lia|].
  intros i t Hi.
  rewrite FindTextureSlot_first_index by exact Hwf1.
  apply (f_equal (fun v => Returns (v, _))).
  change (registered (set_calls (calls st1 ++ bind_calls 0 (occupied st1)) st1))
    with (registered st1).
  rewrite Hreg.
  destruct (first_index_present t (snd <$> scene_requests) 0) as (k & Hk & _ & Hlook).
  { apply list_elem_of_lookup. now exists i. }
  rewrite Hk. f_equal.
  assert (Hnodup : NoDup (snd <$> scene_requests))
    by (apply (bool_decide_unpack _); vm_compute; exact I).
  pose proof (NoDup_lookup _ _ _ _ Hnodup Hi Hlook). lia.
Qed.

(** ** What the render phase touches *)

Lemma renders_ret {A} (a : A) : renders (ret a) [].
Proof.
  intros st a' st' [= <- <-]. repeat split.
  exists []. rewrite app_nil_r. auto.
Qed.

Lemma renders_bind {A B} (c : M A) (k : A -> M B)
    (d1 d2 : list (Mesh * list bool)) :
  renders c d1 -> (forall a, renders (k a) d2) -> renders (bind c k) (d1 ++ d2).
Proof.
  intros Hc Hk st b st' Hrun. unfold bind in Hrun.
  destruct (c st) as [[a s1]|f] eqn:E; [|discriminate].
  destruct (Hc st a s1 E) as (Ha & Hn & Hm & Hg & t1 & Ht1 & Hd1 & Hq1).
  destruct (Hk a s1 b st' Hrun) as (Ha' & Hn' & Hm' & Hg' & t2 & Ht2 & Hd2 & Hq2).
  repeat split; try congruence.
  exists (t1 ++ t2). split; [rewrite Ht2, Ht1; now rewrite app_assoc|].
  split; [|now apply Forall_app].
  subst d1 d2. clear. induction t1 as [|[] t1 IH]; cbn; congruence.
Qed.

Lemma renders_call (c : Call) :
  render_call c -> renders (call c) (draws_of [c]).
Proof.
  intros Hc st a st' [= <- <-]. cbn. repeat split.
  exists [c]. repeat split. now constructor.
Qed.

Lemma renders_gets {A} (proj : State -> A) : renders (gets proj) [].
Proof.
  intros st a st' [= <- <-]. repeat split.
  exists []. rewrite app_nil_r. auto.
Qed.

Lemma renders_texture_at (i : Z) : renders (texture_at i) [].
Proof.
  intros st a st' Hrun. unfold texture_at in Hrun.
  destruct (i <? 0); [discriminate|].
  destruct (m_textureIDs st !! Z.to_nat i); [|discriminate].
  injection Hrun as <- <-. repeat split.
  exists []. rewrite app_nil_r. auto.
Qed.

Lemma renders_material_at (i : Z) : renders (material_at i) [].
Proof.
  intros st a st' Hrun. unfold material_at in Hrun.
  destruct (i <? 0); [discriminate|].
  destruct (m_objectMaterials st !! Z.to_nat i); [|discriminate].
  injection Hrun as <- <-. repeat split.
  exists []. rewrite app_nil_r. auto.
Qed.

Lemma renders_shader_set (name : string) (value : Uniform) :
  renders (shader_set name value) [].
Proof.
  intros st a st' Hrun. unfold shader_set in Hrun.
  destruct (m_pShaderManager st); [|discriminate].
  injection Hrun as <- <-. cbn. repeat split.
  exists [SetUniform name value]. repeat split. now constructor.
Qed.

Lemma renders_for_range (body : Z -> M unit) :
  (forall i, renders (body i) []) ->
  forall (count : nat) (i : Z), renders (for_range count i body) [].
Proof.
  intros Hbody. induction count as [|count IH]; intros i; cbn [for_range].
  - apply renders_ret.
  - apply (renders_bind _ _ [] []); [apply Hbody | intros _; apply IH].
Qed.

Lemma renders_FindTextureSlot (t : string) : renders (FindTextureSlot t) [].
Proof.
  unfold FindTextureSlot. apply (renders_bind _ _ [] []); [apply renders_gets|].
  intros n. generalize (Z.to_nat n) 0. intros remaining.
  induction remaining as [|remaining IH]; intros index; cbn [FindTextureSlot_from].
  - apply renders_ret.
  - apply (renders_bind _ _ [] []); [apply renders_texture_at|].
    intros e. destruct (String.eqb (tag e) t); [apply renders_ret | apply IH].
Qed.

Lemma renders_FindMaterial (t : string) (material : OBJECT_MATERIAL) :
  renders (FindMaterial t material) [].
Proof.
  unfold FindMaterial. apply (renders_bind _ _ [] []); [apply renders_gets|].
  intros size. destruct (Nat.eqb size 0); [apply renders_ret|].
  apply (renders_bind _ _ [] []); [|intros m; apply renders_ret].
  generalize 0. generalize material. generalize size at 1. intros remaining.
  induction remaining as [|remaining IH]; intros m index; cbn [FindMaterial_from].
  - apply renders_ret.
  - apply (renders_bind _ _ [] []); [apply renders_material_at|].
    intros e. destruct (String.eqb (mtag e) t); [apply renders_ret | apply IH].
Qed.

Lemma renders_BindGLTextures : renders BindGLTextures [].
Proof.
  unfold BindGLTextures. apply (renders_bind _ _ [] []); [apply renders_gets|].
  intros n. apply renders_for_range. intros i. unfold BindGLTextures_body.
  apply (renders_bind _ _ [] []); [now apply (renders_call (glActiveTexture i))|].
  intros _. apply (renders_bind _ _ [] []); [apply renders_texture_at|].
  intros e. now apply (renders_call (glBindTexture (ID e))).
Qed.

Lemma renders_SetTransformations (s : glm.vec3) (rx ry rz : R) (t : glm.vec3) :
  renders (SetTransformations s rx ry rz t) [].
Proof.
  unfold SetTransformations. apply (renders_bind _ _ [] []); [apply renders_gets|].
  intros [|]; [apply renders_shader_set | apply renders_ret].
Qed.

Lemma renders_SetShaderColor (r g b a : R) : renders (SetShaderColor r g b a) [].
Proof.
  unfold SetShaderColor. apply (renders_bind _ _ [] []); [apply renders_gets|].
  intros [|]; [|apply renders_ret].
  apply (renders_bind _ _ [] []); [apply renders_shader_set|].
  intros _. apply renders_shader_set.
Qed.

Lemma renders_SetShaderTexture (t : string) : renders (SetShaderTexture t) [].
Proof.
  unfold SetShaderTexture. apply (renders_bind _ _ [] []); [apply renders_gets|].
  intros [|]; [|apply renders_ret].
  apply (renders_bind _ _ [] []); [apply renders_shader_set|]. intros _.
  apply (renders_bind _ _ [] []); [apply renders_FindTextureSlot|]. intros slot.
  apply renders_shader_set.
Qed.

Lemma renders_SetShaderMaterial (u : OBJECT_MATERIAL) (t : string) :
  renders (SetShaderMaterial u t) [].
Proof.
  unfold SetShaderMaterial. apply (renders_bind _ _ [] []); [apply renders_gets|].
  intros size. destruct (0 <? size)%nat; [|apply renders_ret].
  apply (renders_bind _ _ [] []); [apply renders_FindMaterial|].
  intros [[|] m]; [|apply renders_ret].
  apply (renders_bind _ _ [] []); [apply renders_shader_set|]. intros _.
  apply (renders_bind _ _ [] []); [apply renders_shader_set|]. intros _.
  apply renders_shader_set.
Qed.

Lemma renders_Draw (mesh : Mesh) (flags : list bool) :
  renders (call (Draw mesh flags)) [(mesh, flags)].
Proof. now apply (renders_call (Draw mesh flags)). Qed.

Lemma renders_RenderScene : renders (RenderScene uninitialised) scene_draws.
Proof.
  assert (H : exists ds, renders (RenderScene uninitialised) ds /\ ds = scene_draws).
  { eexists. split.
    - unfold RenderScene, DrawBoxMesh, DrawPyramid4Mesh, DrawConeMesh,
        DrawHalfSphereMesh, DrawPlaneMesh, DrawSphereMesh, DrawCylinderMesh,
        DrawTaperedCylinderMesh.
      repeat (eapply renders_bind;
              [ first [ apply renders_BindGLTextures
                      | apply renders_SetTransformations
                      | apply renders_SetShaderColor
                      | apply renders_SetShaderTexture
                      | apply renders_SetShaderMaterial
                      | apply renders_Draw ]
              | intros _; cbv zeta ]).
      apply renders_Draw.
    - reflexivity. }
  destruct H as (ds & H & ->). exact H.
Qed.

(** Whenever [RenderScene] returns, the texture array, its counter, the
    materials and the texture names of the context are as before; every
    call it logged is a uniform write, a texture bind or a draw; and the
    draws are the 26 of the scene, in the order of the source. *)
Theorem RenderScene_draws_the_scene (st st' : State) :
  RenderScene uninitialised st = Returns (tt, st') ->
  m_textureIDs st' = m_textureIDs st /\
  m_loadedTextures st' = m_loadedTextures st /\
  m_objectMaterials st' = m_objectMaterials st /\
  gl_textures st' = gl_textures st /\
  exists trace,
    calls st' = calls st ++ trace /\
    draws_of trace = scene_draws /\
    length scene_draws = 26%nat /\
    Forall render_call trace.
Proof.
  intros Hrun.
  destruct (renders_RenderScene st tt st' Hrun)
    as (Ha & Hn & Hm & Hg & trace & Ht & Hd & Hq).
  repeat split; try assumption. now exists trace.
Qed.

(** ** The render phase without a shader manager *)

Lemma SetTransformations_null (st : State) (s : glm.vec3) (rx ry rz : R)
    (t : glm.vec3) :
  m_pShaderManager st = None ->
  SetTransformations s rx ry rz t st = Returns (tt, st).
Proof.
  intros Hnull. unfold SetTransformations, bind. now rewrite (present_None _ Hnull).
Qed.

Lemma SetShaderTexture_null (st : State) (t : string) :
  m_pShaderManager st = None -> SetShaderTexture t st = Returns (tt, st).
Proof.
  intros Hnull. unfold SetShaderTexture, bind. now rewrite (present_None _ Hnull).
Qed.

(** The guards of the setters do not make the render phase safe: with a
    null shader-manager pointer and at least one material defined,
    [RenderScene] calls through the null pointer, at the first
    [SetShaderMaterial]. *)
Theorem RenderScene_null_pointer (st : State) :
  within_capacity st ->
  m_pShaderManager st = None ->
  m_objectMaterials st <> [] ->
  RenderScene uninitialised st = Undefined NullPointer.
Proof.
  intros Hwf Hnull Hne. unfold RenderScene.
  unfold bind at 1. rewrite (BindGLTextures_run st Hwf). cbv beta iota zeta.
  unfold bind at 1. rewrite SetTransformations_null by exact Hnull.
  unfold bind at 1. rewrite SetShaderTexture_null by exact Hnull.
  unfold bind at 1.
  rewrite SetShaderMaterial_null_pointer; [reflexivity | exact Hnull | exact Hne].
Qed.

(** ** The scene's own materials *)

(** After [DefineObjectMaterials], whatever materials were defined before,
    [RenderScene] does the same whatever the uninitialised locals of its
    calls of [SetShaderMaterial] hold: each material tag it asks for is
    defined, so that content is never written. *)
Theorem DefineObjectMaterials_then_RenderScene (st : State)
    (u1 u2 : nat -> OBJECT_MATERIAL) :
  exists st',
    DefineObjectMaterials st = Returns (tt, st') /\
    RenderScene u1 st' = RenderScene u2 st'.
Proof.
  destruct (DefineObjectMaterials_covered st) as (st' & Hrun & _ & Hcov).
  exists st'. split; [exact Hrun|].
  now apply RenderScene_ignores_indeterminate.
Qed.

(** ** The composed transform on points *)

Lemma modelView_steps (s : glm.vec3) (rx ry rz : R) (t p : glm.vec3) :
  glm.transform_point (modelView s rx ry rz t) p =
    shift_point t
      (turn_z (degrees_to_radians rz)
         (turn_y (degrees_to_radians ry)
            (turn_x (degrees_to_radians rx) (scale_point s p)))).
Proof.
  rewrite modelView_composition. unfold glm.transform_point.
  rewrite !mul_vec_mul.
  rewrite Scale_apply, RotateX_apply, RotateY_apply, RotateZ_apply,
    Translate_apply.
  unfold shift_point, turn_z, turn_y, turn_x, scale_point.
  cbn [glm.x glm.y glm.z glm.r glm.g glm.b glm.a].
  f_equal; ring.
Qed.

(** The matrix [SetTransformations] composes moves a point by scaling it,
    turning it about the x axis, then about the y axis, then about the z
    axis, and shifting it by the position, in this order. *)
Theorem modelView_point (s : glm.vec3) (rx ry rz : R) (t p : glm.vec3) :
  glm.transform_point (modelView s rx ry rz t) p =
    shift_point t
      (turn_z (degrees_to_radians rz)
         (turn_y (degrees_to_radians ry)
            (turn_x (degrees_to_radians rx) (scale_point s p)))).
Proof. apply modelView_steps. Qed.

(** Whatever the scale and the angles, the origin of the object lands on
    the position.  Without rotation a point is scaled and shifted
    component by component; a half turn about x (as for the lid of the
    pot and the half sphere) also flips its y and z components. *)
Theorem modelView_origin_and_simple_cases (s t : glm.vec3) :
  (forall rx ry rz : R,
     glm.transform_point (modelView s rx ry rz t) (glm.Vec3 0 0 0) = t) /\
  (forall p : glm.vec3,
     glm.transform_point (modelView s 0 0 0 t) p =
       glm.Vec3 (glm.x s * glm.x p + glm.x t)
                (glm.y s * glm.y p + glm.y t)
                (glm.z s * glm.z p + glm.z t)) /\
  (forall p : glm.vec3,
     glm.transform_point (modelView s 180 0 0 t) p =
       glm.Vec3 (glm.x s * glm.x p + glm.x t)
                (- (glm.y s * glm.y p) + glm.y t)
                (- (glm.z s * glm.z p) + glm.z t)).
Proof.
  assert (H0 : degrees_to_radians 0 = 0%R) by (unfold degrees_to_radians; field).
  assert (H180 : degrees_to_radians 180 = PI) by (unfold degrees_to_radians; field).
  repeat split; intros; rewrite modelView_steps;
    unfold shift_point, turn_z, turn_y, turn_x, scale_point;
    cbn [glm.x glm.y glm.z]; rewrite ?H0, ?H180, ?cos_0, ?sin_0, ?cos_PI, ?sin_PI;
    destruct t; cbn [glm.x glm.y glm.z]; f_equal; ring.
Qed.

(** ** The sink after colour and texture calls *)

Lemma SetShaderColor_pushes (st : State) (sm : ShaderManager) (r g b a : R) :
  m_pShaderManager st = Some sm ->
  SetShaderColor r g b a st =
    Returns (tt, pushed [(g_UseTextureName, UInt 0);
                         (g_ColorValueName, UVec4 (glm.Vec4 r g b a))] sm st).
Proof.
  intros Hsm. unfold SetShaderColor, bind.
  rewrite (present_Some _ _ Hsm). unfold setIntValue, setVec4Value.
  rewrite (shader_set_pushed _ _ _ _ Hsm).
  rewrite (shader_set_pushed _ _ _ _ (pushed_present _ _ _)).
  now rewrite pushed_pushed.
Qed.

Lemma SetShaderTexture_pushes (st : State) (sm : ShaderManager) (t : string) :
  m_pShaderManager st = Some sm ->
  within_capacity st ->
  SetShaderTexture t st =
    Returns (tt, pushed [(g_UseTextureName, UInt 1);
                         (g_TextureValueName,
                          USampler2D (first_index t (registered st) 0))] sm st).
Proof.
  intros Hsm Hwf. unfold SetShaderTexture, bind.
  rewrite (present_Some _ _ Hsm). unfold setIntValue, setSampler2DValue.
  rewrite (shader_set_pushed _ _ _ _ Hsm).
  rewrite FindTextureSlot_first_index by exact Hwf.
  rewrite (shader_set_pushed _ _ _ _ (pushed_present _ _ _)).
  now rewrite pushed_pushed.
Qed.

Lemma uniform_value_pushed (name : string) (ws : list (string * Uniform))
    (sm : ShaderManager) (st : State) :
  uniform_value name (pushed ws sm st) =
    uniforms (fold_left (fun sm' w => write_uniform (fst w) (snd w) sm') ws sm) !! name.
Proof. reflexivity. Qed.

(** The texturing flag follows the later of the two calls, and neither
    call disturbs what the other wrote: after [SetShaderTexture] then
    [SetShaderColor] the sink holds [bUseTexture = 0] with the sampler
    slot still in place; in the other order it holds [bUseTexture = 1]
    with the colour still in place.  No other uniform changes. *)
Theorem texture_flag_follows_last_call (st : State) (sm : ShaderManager)
    (t : string) (r g b a : R) :
  m_pShaderManager st = Some sm ->
  within_capacity st ->
  exists (slot : Z) (st1 st2 : State),
    FindTextureSlot t st = Returns (slot, st) /\
    (SetShaderTexture t ;;; SetShaderColor r g b a) st = Returns (tt, st1) /\
    (SetShaderColor r g b a ;;; SetShaderTexture t) st = Returns (tt, st2) /\
    uniform_value "bUseTexture" st1 = Some (UInt 0) /\
    uniform_value "bUseTexture" st2 = Some (UInt 1) /\
    (forall st', st' = st1 \/ st' = st2 ->
       uniform_value "objectTexture" st' = Some (USampler2D slot) /\
       uniform_value "objectColor" st' = Some (UVec4 (glm.Vec4 r g b a)) /\
       forall name : string,
         name <> "bUseTexture" -> name <> "objectTexture" -> name <> "objectColor" ->
         uniform_value name st' = uniforms sm !! name).
Proof.
  intros Hsm Hwf.
  exists (first_index t (registered st) 0). eexists. eexists.
  split; [now apply FindTextureSlot_first_index|].
  split.
  { unfold bind. rewrite (SetShaderTexture_pushes st sm t Hsm Hwf).
    rewrite (SetShaderColor_pushes _ _ r g b a (pushed_present _ _ _)).
    rewrite pushed_pushed. reflexivity. }
  split.
  { unfold bind. rewrite (SetShaderColor_pushes st sm r g b a Hsm).
    rewrite (SetShaderTexture_pushes _ _ t (pushed_present _ _ _)) by exact Hwf.
    rewrite pushed_pushed. reflexivity. }
  unfold g_UseTextureName, g_TextureValueName, g_ColorValueName.
  rewrite !uniform_value_pushed. cbn [app fold_left fst snd write_uniform uniforms].
  split; [now simplify_map_eq|]. split; [now simplify_map_eq|].
  intros st' [->| ->]; rewrite ?uniform_value_pushed;
    cbn [app fold_left fst snd write_uniform uniforms];
    (split; [now simplify_map_eq|]); (split; [now simplify_map_eq|]);
    intros name H1 H2 H3; rewrite uniform_value_pushed;
    cbn [fold_left fst snd write_uniform uniforms]; now simplify_map_eq.
Qed.

(** ** The two lookups agree *)

Lemma first_id_at_first_index (t : string) (l : list TEXTURE_INFO) :
  forall i : Z,
    t ∈ tag <$> l ->
    exists (k : nat) (e : TEXTURE_INFO),
      first_index t (tag <$> l) i = i + Z.of_nat k /\
      l !! k = Some e /\ tag e = t /\ first_id t l = to_int (ID e).
Proof.
  induction l as [|x l IH]; intros i Hin; [now apply elem_of_nil in Hin|].
  rewrite fmap_cons in *. cbn [first_index first_id].
  destruct (String.eqb (tag x) t) eqn:E.
  - apply String.eqb_eq in E. exists 0%nat, x. cbn. repeat split; [lia | exact E].
  - apply elem_of_cons in Hin as [->|Hin];
      [rewrite String.eqb_refl in E; discriminate|].
    destruct (IH (i + 1) Hin) as (k & e & Hk & Hlook & Ht & Hid).
    exists (S k), e. cbn. repeat split; [lia | exact Hlook | exact Ht | exact Hid].
Qed.

(** [FindTextureSlot] and [FindTextureID] answer for the same entry: either
    both return -1 and the tag is not registered, or the slot is an
    occupied one whose entry carries the tag and whose texture name is
    what [FindTextureID] returns. *)
Theorem lookups_agree (st : State) (t : string) :
  within_capacity st ->
  exists slot : Z,
    FindTextureSlot t st = Returns (slot, st) /\
    ((slot = -1 /\ (t ∉ registered st) /\ FindTextureID t st = Returns (-1, st)) \/
     (0 <= slot < m_loadedTextures st /\
      exists e, m_textureIDs st !! Z.to_nat slot = Some e /\ tag e = t /\
                FindTextureID t st = Returns (to_int (ID e), st))).
Proof.
  intros Hwf. exists (first_index t (registered st) 0).
  split; [now apply FindTextureSlot_first_index|].
  rewrite FindTextureID_first_id by exact Hwf.
  destruct (decide (t ∈ registered st)) as [Hin|Hnot].
  - right. rewrite registered_occupied in Hin.
    destruct (first_id_at_first_index t (occupied st) 0 Hin)
      as (k & e & Hk & Hlook & Ht & Hid).
    rewrite registered_occupied, Hk, Hid.
    apply lookup_take_Some in Hlook as [Hlook Hlt].
    split; [destruct Hwf as [_ Hn]; lia|].
    exists e. replace (Z.to_nat (0 + Z.of_nat k)) with k by lia. auto.
  - left. split; [now apply first_index_absent|]. split; [exact Hnot|].
    now rewrite first_id_absent.
Qed.

End More.

(** ** The further properties on the prepared scene *)

Definition demo_matte : OBJECT_MATERIAL :=
  {| diffuseColor := glm.Vec3 0.3 0.3 0.4; specularColor := glm.Vec3 0.0 0.0 0.0;
     shininess := 0.05; mtag := "matte" |}.

(** The prepared scene with the shader-manager pointer cleared. *)
Definition unplugged_scene : State := set_pShaderManager None prepared_scene.

Lemma prepared_scene_within_capacity : within_capacity prepared_scene.
Proof. split; [vm_compute; reflexivity | vm_compute; split; discriminate]. Qed.

Lemma within_capacity_set_pShaderManager (p : option ShaderManager) (st : State) :
  within_capacity st -> within_capacity (set_pShaderManager p st).
Proof. intros H. exact H. Qed.

Lemma unplugged_scene_within_capacity : within_capacity unplugged_scene.
Proof.
  unfold unplugged_scene.
  apply within_capacity_set_pShaderManager, prepared_scene_within_capacity.
Qed.

Lemma prepared_scene_shader : m_pShaderManager prepared_scene = Some empty_sink.
Proof. vm_compute. reflexivity. Qed.

Lemma prepared_scene_registered :
  registered prepared_scene = snd <$> scene_requests.
Proof. vm_compute. reflexivity. Qed.

Lemma prepared_scene_matte : first_material prepared_scene "matte" demo_matte.
Proof.
  exists 1%nat. split; [vm_compute; reflexivity|]. split; [reflexivity|].
  intros j e' Hj He'. assert (j = 0%nat) as -> by lia.
  vm_compute in He'. injection He' as <-. discriminate.
Qed.

Lemma demo_accepts_scene_requests (r : string * string) :
  r ∈ scene_requests -> accepted demo_stbi_load (fst r) = true.
Proof.
  intros Hr. unfold scene_requests in Hr.
  repeat (apply elem_of_cons in Hr as [->|Hr]; [vm_compute; reflexivity|]).
  now apply elem_of_nil in Hr.
Qed.

Lemma FindTextureID_first_match_witness :
  FindTextureID "velvet" prepared_scene = Returns (-1, prepared_scene) /\
  FindTextureID "redTexture" prepared_scene =
    Returns (to_int (ID {| ID := 2; tag := "redTexture" |}), prepared_scene).
Proof.
  destruct (FindTextureID_first_match prepared_scene "velvet"
              prepared_scene_within_capacity) as [Hmiss _].
  destruct (FindTextureID_first_match prepared_scene "redTexture"
              prepared_scene_within_capacity) as [_ Hhit].
  split.
  - apply Hmiss. rewrite prepared_scene_registered.
    apply (bool_decide_unpack _). vm_compute. exact I.
  - apply (Hhit 1%nat); [vm_compute; reflexivity | reflexivity |].
    intros j e' Hj He'. assert (j = 0%nat) as -> by lia.
    vm_compute in He'. injection He' as <-. discriminate.
Defined.

Lemma CreateGLTexture_then_lookup_witness :
  exists st',
    CreateGLTexture demo_stbi_load demo_glFreshName "textures/plane.jpg"
      "planeTexture" (SceneManager_new None [] []) = Returns (true, st') /\
    m_loadedTextures st' = m_loadedTextures (SceneManager_new None [] []) + 1 /\
    FindTextureSlot "planeTexture" st' =
      Returns (m_loadedTextures (SceneManager_new None [] []), st') /\
    FindTextureID "planeTexture" st' =
      Returns (to_int (demo_glFreshName (gl_textures (SceneManager_new None [] []))),
               st').
Proof.
  apply (CreateGLTexture_then_lookup demo_stbi_load demo_glFreshName).
  - apply SceneManager_new_within_capacity.
  - reflexivity.
  - reflexivity.
  - apply not_elem_of_nil.
Defined.

Lemma CreateGLTexture_keeps_slots_witness :
  exists st',
    CreateGLTexture demo_stbi_load demo_glFreshName "textures/wall.jpg" "wall"
      prepared_scene = Returns (true, st') /\
    forall t : string,
      t ∈ registered prepared_scene ->
      exists slot : Z,
        0 <= slot < m_loadedTextures prepared_scene /\
        FindTextureSlot t prepared_scene = Returns (slot, prepared_scene) /\
        FindTextureSlot t st' = Returns (slot, st').
Proof.
  apply (CreateGLTexture_keeps_slots demo_stbi_load demo_glFreshName).
  - exact prepared_scene_within_capacity.
  - vm_compute. reflexivity.
  - vm_compute. reflexivity.
Defined.

Lemma SetShaderTexture_registered_slot_witness :
  exists slot : Z,
    0 <= slot < m_loadedTextures prepared_scene /\
    registered prepared_scene !! Z.to_nat slot = Some "wall" /\
    SetShaderTexture "wall" prepared_scene =
      Returns (tt, pushed [(g_UseTextureName, UInt 1);
                           (g_TextureValueName, USampler2D slot)]
                     empty_sink prepared_scene).
Proof.
  apply SetShaderTexture_registered_slot.
  - exact prepared_scene_shader.
  - exact prepared_scene_within_capacity.
  - rewrite prepared_scene_registered.
    apply (bool_decide_unpack _). vm_compute. exact I.
Defined.

Lemma CreateGLTexture_failure_leftovers_witness :
  (exists st',
     CreateGLTexture demo_stbi_load demo_glFreshName "textures/missing.jpg"
       "ghostTexture" prepared_scene = Returns (false, st') /\
     gl_textures st' = gl_textures prepared_scene /\
     calls st' = calls prepared_scene ++
       [stbi_set_flip_vertically_on_load true;
        stbi_load_file "textures/missing.jpg"]) /\
  (exists st',
     CreateGLTexture demo_stbi_load demo_glFreshName "textures/grey.png"
       "greyTexture" prepared_scene = Returns (false, st') /\
     gl_textures st' =
       demo_glFreshName (gl_textures prepared_scene) :: gl_textures prepared_scene /\
     calls st' = calls prepared_scene ++
       [stbi_set_flip_vertically_on_load true;
        stbi_load_file "textures/grey.png";
        glGenTextures (demo_glFreshName (gl_textures prepared_scene));
        glBindTexture (demo_glFreshName (gl_textures prepared_scene));
        glTexParameteri GL_TEXTURE_WRAP_S GL_REPEAT;
        glTexParameteri GL_TEXTURE_WRAP_T GL_REPEAT;
        glTexParameteri GL_TEXTURE_MIN_FILTER GL_LINEAR;
        glTexParameteri GL_TEXTURE_MAG_FILTER GL_LINEAR]).
Proof.
  split.
  - apply (proj1 (CreateGLTexture_failure_leftovers demo_stbi_load demo_glFreshName
                    prepared_scene "textures/missing.jpg" "ghostTexture")).
    reflexivity.
  - apply (proj2 (CreateGLTexture_failure_leftovers demo_stbi_load demo_glFreshName
                    prepared_scene "textures/grey.png" "greyTexture")
             {| width := 64; height := 64; colorChannels := 1 |}).
    + reflexivity.
    + discriminate.
    + discriminate.
Defined.

Lemma CreateGLTextures_handles_alive_witness :
  exists st',
    CreateGLTextures demo_stbi_load demo_glFreshName three_requests
      (SceneManager_new None [] []) =
      Returns (map (fun r => accepted demo_stbi_load (fst r)) three_requests, st') /\
    within_capacity st' /\ handles_alive st'.
Proof.
  apply (CreateGLTextures_handles_alive demo_stbi_load demo_glFreshName).
  - apply SceneManager_new_within_capacity.
  - intros e He. now apply elem_of_nil in He.
  - vm_compute. lia.
Defined.

Lemma BindGLTextures_slot_order_witness :
  BindGLTextures prepared_scene =
    Returns (tt, set_calls (calls prepared_scene ++
                            bind_calls 0 (occupied prepared_scene)) prepared_scene).
Proof.
  apply BindGLTextures_slot_order. exact prepared_scene_within_capacity.
Defined.

Lemma DestroyGLTextures_empties_registry_witness :
  exists st',
    DestroyGLTextures demo_glFreshName prepared_scene = Returns (tt, st') /\
    m_loadedTextures st' = 0 /\
    (forall t, FindTextureSlot t st' = Returns (-1, st')) /\
    (forall t, FindTextureID t st' = Returns (-1, st')) /\
    DestroyGLTextures demo_glFreshName st' = Returns (tt, st') /\
    (forall h, h ∈ gl_textures prepared_scene -> h ∈ gl_textures st') /\
    length (gl_textures st') =
      (length (gl_textures prepared_scene) +
       Z.to_nat (m_loadedTextures prepared_scene))%nat.
Proof.
  apply DestroyGLTextures_empties_registry. exact prepared_scene_within_capacity.
Defined.

Lemma SceneManager_destroy_safe_witness :
  exists st',
    SceneManager_destroy demo_glFreshName prepared_scene = Returns (tt, st') /\
    m_pShaderManager st' = None /\
    m_loadedTextures st' = 0 /\
    m_objectMaterials st' = m_objectMaterials prepared_scene /\
    (forall c, c ∈ calls st' ->
       c ∈ calls prepared_scene \/ exists name, c = glGenTextures name).
Proof.
  apply SceneManager_destroy_safe. exact prepared_scene_within_capacity.
Defined.

Lemma FindMaterial_first_match_witness :
  FindMaterial "matte" demo_indeterminate prepared_scene =
    Returns ((true, {| diffuseColor := diffuseColor demo_matte;
                       specularColor := specularColor demo_matte;
                       shininess := shininess demo_matte;
                       mtag := mtag demo_indeterminate |}), prepared_scene).
Proof.
  apply FindMaterial_first_match. exact prepared_scene_matte.
Defined.

Lemma SetShaderMaterial_hit_writes_witness :
  SetShaderMaterial demo_indeterminate "matte" prepared_scene =
    Returns (tt, pushed [("material.diffuseColor", UVec3 (diffuseColor demo_matte));
                         ("material.specularColor", UVec3 (specularColor demo_matte));
                         ("material.shininess", UFloat (shininess demo_matte))]
                   empty_sink prepared_scene).
Proof.
  apply SetShaderMaterial_hit_writes.
  - exact prepared_scene_shader.
  - exact prepared_scene_matte.
Defined.

Lemma SetShaderMaterial_unguarded_witness :
  SetShaderMaterial demo_indeterminate "matte" (SceneManager_new None [] []) =
    Returns (tt, SceneManager_new None [] []) /\
  SetShaderMaterial demo_indeterminate "matte" unplugged_scene =
    Undefined NullPointer.
Proof.
  split.
  - apply (proj1 (SetShaderMaterial_unguarded demo_indeterminate
                    (SceneManager_new None [] []) "matte")).
    reflexivity.
  - apply (proj2 (SetShaderMaterial_unguarded demo_indeterminate
                    unplugged_scene "matte")).
    + vm_compute. discriminate.
    + reflexivity.
Defined.

Lemma defined_material_is_kept_witness :
  (forall new : OBJECT_MATERIAL,
     exists st',
       push_back new prepared_scene = Returns (tt, st') /\
       forall material,
         FindMaterial "matte" material st' =
           Returns ((true, found_material demo_matte material), st')) /\
  (exists st',
     DefineObjectMaterials prepared_scene = Returns (tt, st') /\
     length (m_objectMaterials st') =
       (length (m_objectMaterials prepared_scene) + 4)%nat /\
     forall material,
       FindMaterial "matte" material st' =
         Returns ((true, found_material demo_matte material), st')).
Proof.
  apply defined_material_is_kept. exact prepared_scene_matte.
Defined.

Lemma LoadSceneTextures_fits_witness :
  exists st,
    LoadSceneTextures demo_stbi_load demo_glFreshName
      (SceneManager_new (Some empty_sink) [] []) = Returns (tt, st) /\
    m_loadedTextures st = 14 /\
    forall (i : nat) (t : string),
      (snd <$> scene_requests) !! i = Some t ->
      FindTextureSlot t st = Returns (Z.of_nat i, st).
Proof.
  destruct (LoadSceneTextures_fits demo_stbi_load demo_glFreshName
              (Some empty_sink) [] []) as (st & Hrun & _ & _ & _ & Hall).
  exists st. split; [exact Hrun|].
  apply Hall. exact demo_accepts_scene_requests.
Defined.

Lemma RenderScene_draws_the_scene_witness :
  exists st',
    RenderScene demo_first_pass prepared_scene = Returns (tt, st') /\
    m_textureIDs st' = m_textureIDs prepared_scene /\
    m_loadedTextures st' = m_loadedTextures prepared_scene /\
    m_objectMaterials st' = m_objectMaterials prepared_scene /\
    gl_textures st' = gl_textures prepared_scene /\
    exists trace,
      calls st' = calls prepared_scene ++ trace /\
      draws_of trace = scene_draws /\
      length scene_draws = 26%nat /\
      Forall render_call trace.
Proof.
  destruct (runs_RenderScene demo_first_pass prepared_scene)
    as ([] & st' & Hrun).
  - split; [exact prepared_scene_within_capacity|].
    unfold present. now rewrite prepared_scene_shader.
  - exists st'. split; [exact Hrun|].
    exact (RenderScene_draws_the_scene demo_first_pass prepared_scene st' Hrun).
Defined.

Lemma RenderScene_null_pointer_witness :
  RenderScene demo_first_pass unplugged_scene = Undefined NullPointer.
Proof.
  apply RenderScene_null_pointer.
  - exact unplugged_scene_within_capacity.
  - reflexivity.
  - vm_compute. discriminate.
Defined.

Lemma texture_flag_follows_last_call_witness :
  exists (slot : Z) (st1 st2 : State),
    FindTextureSlot "wall" prepared_scene = Returns (slot, prepared_scene) /\
    (SetShaderTexture "wall" ;;; SetShaderColor 0.1 0.2 0.3 0.8) prepared_scene
      = Returns (tt, st1) /\
    (SetShaderColor 0.1 0.2 0.3 0.8 ;;; SetShaderTexture "wall") prepared_scene
      = Returns (tt, st2) /\
    uniform_value "bUseTexture" st1 = Some (UInt 0) /\
    uniform_value "bUseTexture" st2 = Some (UInt 1) /\
    (forall st', st' = st1 \/ st' = st2 ->
       uniform_value "objectTexture" st' = Some (USampler2D slot) /\
       uniform_value "objectColor" st' = Some (UVec4 (glm.Vec4 0.1 0.2 0.3 0.8)) /\
       forall name : string,
         name <> "bUseTexture" -> name <> "objectTexture" -> name <> "objectColor" ->
         uniform_value name st' = uniforms empty_sink !! name).
Proof.
  apply texture_flag_follows_last_call.
  - exact prepared_scene_shader.
  - exact prepared_scene_within_capacity.
Defined.

Lemma lookups_agree_witness :
  exists slot : Z,
    FindTextureSlot "wall" prepared_scene = Returns (slot, prepared_scene) /\
    ((slot = -1 /\ ("wall" ∉ registered prepared_scene) /\
      FindTextureID "wall" prepared_scene = Returns (-1, prepared_scene)) \/
     (0 <= slot < m_loadedTextures prepared_scene /\
      exists e, m_textureIDs prepared_scene !! Z.to_nat slot = Some e /\
                tag e = "wall" /\
                FindTextureID "wall" prepared_scene =
                  Returns (to_int (ID e), prepared_scene))).
Proof.
  apply lookups_agree. exact prepared_scene_within_capacity.
Defined.
